(** * The task processor and the wait list of the engine

    A shallow embedding of [src/engine/task/task_processor.cpp] and
    [src/engine/wait_list.cpp], and the properties of their scheduling,
    overload and wake-up paths; then of the worker loop, adoption and
    destruction of the processor, and of the in-flight statistics of
    [server/handlers/http_handler_base_statistics.hpp].

    Conventions of the embedding.
    - A task context is a heap object that the engine handles by pointer.
      A non-null pointer is a [handle]; a pointer that may be null is an
      [option handle].  The objects live in a store [contexts].
    - Calls into collaborators whose code is outside these files (the task
      counter, the clock, [RequestCancel], [Wakeup], the reference count)
      are recorded, in program order, in a [trace] of [Event]s.
    - A member function is a computation in the state monad [M] over
      [World]; each statement of the source is one bind.
    - Logging statements change nothing that is modelled and are left out.
    - A [size_t] and the [int64_t] count of a duration are integers with
      the wrap-around of their arithmetic written out. *)

From Stdlib Require Import ZArith List Bool Lia.
From stdpp Require Import base tactics option list.
From stdpp Require Import gmap.

Set Default Proof Using "Type".

(** ** Collaborator interfaces *)

(** A pointer to a task context. *)
Definition handle := nat.

(** [Task::CancellationReason]: the two reasons these files pass. *)
Inductive CancellationReason := kOverload | kShutdown.

(** [TaskContext::WakeupSource].
    Modelled from the spec: the enumeration is declared in task_context.hpp;
    only [kWaitList] is used by the code at hand. *)
Inductive WakeupSource := kWaitList | kDeadlineTimer | kCancellation.

(** [TaskProcessorSettings::OverloadAction]. *)
Inductive OverloadAction := kIgnore | kCancel.

(** A steady-clock time point and the duration between two of them, in
    clock ticks (nanoseconds).  The value-initialised [time_point()] is 0. *)
Definition time_point := Z.
Definition time_point_zero : time_point := 0%Z.

(** Ticks in a microsecond: [max_task_queue_wait_time_] is kept in
    microseconds and compared with a tick count in the finer unit. *)
Definition ticks_per_microsecond : Z := 1000%Z.

(** The counts of [std::chrono] durations and time points are [int64_t]:
    the values that fit, and a result that does not fit wrapped around in
    two's complement. *)
Definition in_int64 (z : Z) : Prop := (- 2 ^ 63 <= z < 2 ^ 63)%Z.
Definition int64_wrap (z : Z) : Z := ((z + 2 ^ 63) mod 2 ^ 64 - 2 ^ 63)%Z.

(** Calls into the collaborators. *)
Inductive Event :=
| EvAccountTaskOverload
| EvAccountTaskCancelOverload
| EvAccountTaskSwitchSlow
| EvRequestCancel (context : handle) (reason : CancellationReason)
| EvSteadyClockNow
| EvIntrusivePtrAddRef (context : handle)
| EvEnqueue (context : handle)
| EvWakeup (context : handle) (source : WakeupSource).

Global Instance CancellationReason_eq_dec : EqDecision CancellationReason.
Proof. solve_decision. Defined.
Global Instance WakeupSource_eq_dec : EqDecision WakeupSource.
Proof. solve_decision. Defined.
Global Instance OverloadAction_eq_dec : EqDecision OverloadAction.
Proof. solve_decision. Defined.
Global Instance Event_eq_dec : EqDecision Event.
Proof. solve_decision. Defined.

(** How many times a call occurs among some calls. *)
Definition occurrences (e : Event) (evs : list Event) : nat :=
  count_occ Event_eq_dec evs e.

(** No element of a list of events written out in full is [e], when [e]
    differs from each by its constructor or arguments. *)
Ltac not_among :=
  unfold not; intros;
  match goal with
  | H : _ ∈ _ |- False =>
      repeat (apply elem_of_cons in H as [H | H]; [congruence |]);
      apply elem_of_nil in H; exact H
  end.

(** The part of a task context these files read and write.
    Modelled from the spec: the class is declared in task_context.hpp;
    [is_critical] is fixed at creation, [queue_wait_timepoint] is what
    [SetQueueWaitTimepoint] stores and [GetQueueWaitTimepoint] loads. *)
Record TaskContext := mkTaskContext {
  is_critical : bool;
  queue_wait_timepoint : time_point
}.

(** ** The task processor *)

Module TaskProcessor.

(** [size_t] arithmetic: 64 bits, wrapping. *)
Definition size_t_modulus : Z := (2 ^ 64)%Z.
Definition size_t_wrap (z : Z) : Z := (z mod size_t_modulus)%Z.

(** The data members the modelled functions touch.
    Modelled from the spec: the class is declared in task_processor.hpp;
    the two counts are unsigned 64-bit atomics, the wait time is a
    microsecond count. *)
Record State := mkState {
  is_shutting_down_ : bool;
  task_queue_size_ : Z;
  max_task_queue_wait_time_ : Z;
  max_task_queue_wait_length_ : Z;
  overload_action_ : OverloadAction;
  task_queue_wait_time_overloaded_ : bool;
  task_queue_ : list handle
}.

(** What a thread running a member function sees. *)
Record World := mkWorld {
  proc : State;
  (** [thread_local size_t task_count] of [SetTaskQueueWaitTimepoint] *)
  task_count : Z;
  contexts : handle -> TaskContext;
  (** the value the next [steady_clock::now()] returns *)
  steady_clock_now : time_point;
  trace : list Event
}.

Definition M (A : Type) : Type := World -> A * World.

Global Instance M_ret : MRet M := fun A a w => (a, w).
Global Instance M_bind : MBind M :=
  fun A B k m w => let (a, w') := m w in k a w'.

Definition gets {A} (f : World -> A) : M A := fun w => (f w, w).

Definition load {A} (field : State -> A) : M A :=
  gets (fun w => field (proc w)).

Definition store_proc (f : State -> State) : M unit :=
  fun w => (tt, mkWorld (f (proc w)) (task_count w) (contexts w)
                        (steady_clock_now w) (trace w)).

Definition emit (e : Event) : M unit :=
  fun w => (tt, mkWorld (proc w) (task_count w) (contexts w)
                        (steady_clock_now w) (trace w ++ [e])).

Definition when (b : bool) (m : M unit) : M unit :=
  if b then m else mret tt.

(** *** Field updates *)

Definition set_task_queue_wait_time_overloaded (b : bool) (s : State) : State :=
  mkState (is_shutting_down_ s) (task_queue_size_ s)
          (max_task_queue_wait_time_ s) (max_task_queue_wait_length_ s)
          (overload_action_ s) b (task_queue_ s).

Definition set_task_queue_size (n : Z) (s : State) : State :=
  mkState (is_shutting_down_ s) n
          (max_task_queue_wait_time_ s) (max_task_queue_wait_length_ s)
          (overload_action_ s) (task_queue_wait_time_overloaded_ s)
          (task_queue_ s).

Definition push_task_queue (c : handle) (s : State) : State :=
  mkState (is_shutting_down_ s) (task_queue_size_ s)
          (max_task_queue_wait_time_ s) (max_task_queue_wait_length_ s)
          (overload_action_ s) (task_queue_wait_time_overloaded_ s)
          (task_queue_ s ++ [c]).

(** *** Task context methods *)

Definition IsCritical (context : handle) : M bool :=
  gets (fun w => is_critical (contexts w context)).

Definition GetQueueWaitTimepoint (context : handle) : M time_point :=
  gets (fun w => queue_wait_timepoint (contexts w context)).

Definition SetQueueWaitTimepoint (context : handle) (t : time_point) : M unit :=
  fun w =>
    (tt, mkWorld (proc w) (task_count w)
           (fun c => if Nat.eqb c context
                     then mkTaskContext (is_critical (contexts w c)) t
                     else contexts w c)
           (steady_clock_now w) (trace w)).

Definition RequestCancel (context : handle) (reason : CancellationReason)
  : M unit := emit (EvRequestCancel context reason).

Definition intrusive_ptr_add_ref (context : handle) : M unit :=
  emit (EvIntrusivePtrAddRef context).

(** [std::chrono::steady_clock::now()] *)
Definition steady_clock_now_call : M time_point :=
  emit EvSteadyClockNow ;; gets steady_clock_now.

(** [task_queue_.enqueue(context)] *)
Definition enqueue (context : handle) : M unit :=
  store_proc (push_task_queue context) ;; emit (EvEnqueue context).

(** *** Member functions *)

Definition kTaskTimestampFrequency : Z := 16%Z.

(** [task_count++]: yields the old value. *)
Definition task_count_post_increment : M Z :=
  fun w => (task_count w,
            mkWorld (proc w) (size_t_wrap (task_count w + 1)) (contexts w)
                    (steady_clock_now w) (trace w)).

Definition SetTaskQueueWaitTimepoint (context : handle) : M unit :=
  n ← task_count_post_increment;
  if (n mod kTaskTimestampFrequency =? 0)%Z then
    now ← steady_clock_now_call;
    SetQueueWaitTimepoint context now
  else
    SetQueueWaitTimepoint context time_point_zero.

Definition HandleOverload (context : handle) : M unit :=
  emit EvAccountTaskOverload ;;
  action ← load overload_action_;
  match action with
  | kCancel =>
      critical ← IsCritical context;
      if negb critical then
        RequestCancel context kOverload ;;
        emit EvAccountTaskCancelOverload
      else mret tt
  | kIgnore => mret tt
  end.

Definition Schedule (context : handle) : M unit :=
  max_length ← load max_task_queue_wait_length_;
  critical ← IsCritical context;
  size ← load task_queue_size_;
  when (negb (max_length =? 0)%Z && negb critical && (max_length <=? size)%Z)
       (HandleOverload context) ;;
  shutting_down ← load is_shutting_down_;
  when shutting_down (RequestCancel context kShutdown) ;;
  SetTaskQueueWaitTimepoint context ;;
  intrusive_ptr_add_ref context ;;
  size' ← load task_queue_size_;
  store_proc (set_task_queue_size (size_t_wrap (size' + 1))) ;;
  enqueue context.

(** [CheckWaitTime].  [wait_time] is the difference of two time points, a
    count of ticks; [wait_time >= max_wait_time] is taken in the finer of
    the two units, so the limit is first turned into ticks: its count in
    microseconds times [ticks_per_microsecond], in [int64_t]. *)
Definition CheckWaitTime (context : handle) : M unit :=
  max_wait_time ← load max_task_queue_wait_time_;
  if (max_wait_time =? 0)%Z then
    store_proc (set_task_queue_wait_time_overloaded false)
  else
    wait_timepoint ← GetQueueWaitTimepoint context;
    (if negb (wait_timepoint =? time_point_zero)%Z then
       now ← steady_clock_now_call;
       let wait_time := int64_wrap (now - wait_timepoint) in
       store_proc (set_task_queue_wait_time_overloaded
                     (int64_wrap (max_wait_time * ticks_per_microsecond)
                      <=? wait_time)%Z)
     else mret tt) ;;
    overloaded ← load task_queue_wait_time_overloaded_;
    when overloaded (HandleOverload context).

(** The worker's view of one pass of the polling loop of [DequeueTask]:
    what [wait_dequeue_timed] returned and, when it returned false, the value
    [is_running_] had when the loop condition then read it.  Both depend on
    the other threads (producers, the other workers, the destructor), so a
    run of the loop is driven by a script of such outcomes. *)
Inductive DequeueOutcome :=
| Produced (context : handle)
| TimedOut (is_running : bool).

(** [DequeueTask]: the result is [Some buf] when the loop has exited
    ([buf] is the null pointer, [None], or the context dequeued), and [None]
    when the script ends with the loop still polling. *)
Fixpoint DequeueTask (script : list DequeueOutcome)
  : M (option (option handle)) :=
  match script with
  | [] => mret None
  | Produced context :: _ => mret (Some (Some context))
  | TimedOut is_running :: rest =>
      if is_running then
        emit EvAccountTaskSwitchSlow ;; DequeueTask rest
      else mret (Some None)
  end.

(** The outcomes one run of the loop consumes: up to and including the
    first one that ends it. *)
Fixpoint attempts (script : list DequeueOutcome) : list DequeueOutcome :=
  match script with
  | [] => []
  | Produced context :: _ => [Produced context]
  | TimedOut is_running :: rest =>
      TimedOut is_running :: (if is_running then attempts rest else [])
  end.

(** The calls a computation makes when run from [w]: what it appends to
    the trace. *)
Definition calls {A} (m : M A) (w : World) : list Event :=
  drop (length (trace w)) (trace (snd (m w))).

(** The timed-out attempts among some outcomes, and those of them after
    which [is_running_] was read as true. *)
Definition timed_out (o : DequeueOutcome) : bool :=
  match o with TimedOut _ => true | Produced _ => false end.

Definition timed_out_running (o : DequeueOutcome) : bool :=
  match o with TimedOut is_running => is_running | Produced _ => false end.

Definition timeouts (os : list DequeueOutcome) : nat :=
  length (List.filter timed_out os).

Definition running_timeouts (os : list DequeueOutcome) : nat :=
  length (List.filter timed_out_running os).

(** [Schedule] called for each context of a list in turn, by one thread. *)
Fixpoint ScheduleAll (cs : list handle) : M unit :=
  match cs with
  | [] => mret tt
  | context :: rest => Schedule context ;; ScheduleAll rest
  end.

(** How many of [n] consecutive values of the counter, from [count] on,
    are multiples of [kTaskTimestampFrequency]. *)
Fixpoint multiples_from (count : Z) (n : nat) : nat :=
  match n with
  | O => O
  | S n' =>
      ((if (count mod kTaskTimestampFrequency =? 0)%Z then 1 else 0)
       + multiples_from (count + 1) n')%nat
  end.

(** Unfolds the member functions down to functions on [World]. *)
Ltac run :=
  unfold calls, Schedule, CheckWaitTime, HandleOverload,
    SetTaskQueueWaitTimepoint, enqueue, steady_clock_now_call,
    task_count_post_increment, intrusive_ptr_add_ref, RequestCancel,
    SetQueueWaitTimepoint, GetQueueWaitTimepoint, IsCritical, when, load,
    gets, store_proc, emit, mbind, M_bind, mret, M_ret; cbn.

(** Splits a membership in a list of events written out in full, given as
    a disjunction of equations, into the equations that can hold. *)
Ltac among H :=
  repeat (destruct H as [H | H]; try discriminate H);
  try contradiction H.

(** Finds an event in a list written out in full. *)
Ltac pick := repeat ((left; reflexivity) || right).

End TaskProcessor.

(** ** The wait list *)

Module WaitList.

(** [WaitListBase::Lock]: [assert(lock)] converts it to [bool], which is
    whether it holds the mutex. *)
Record Lock := mkLock { owns_lock : bool }.

(** [waiting_contexts_]: a sequence of [intrusive_ptr]s, each of which may
    have been reset. *)
Abbreviation Slots := (list (option handle)).

(** The result of a member function: the new [waiting_contexts_] and the
    calls made; [None] when an [assert] stops the program. *)
Definition Outcome := option (Slots * list Event).

Section Build.

(** Whether the build defines [NDEBUG], which turns [assert] into nothing. *)
Variable NDEBUG : bool.

Definition assert_holds (condition : bool) : bool := NDEBUG || condition.

Definition Append (lock : Lock) (context : option handle) (wl : Slots)
  : Outcome :=
  if assert_holds (owns_lock lock) then Some (wl ++ [context], [])
  else None.

(** The loop of [WakeupOne]: [front], [pop_front], test, wake and break. *)
Fixpoint WakeupOne_loop (wl : Slots) : Slots * list Event :=
  match wl with
  | [] => ([], [])
  | next_context :: rest =>
      match next_context with
      | Some c => (rest, [EvWakeup c kWaitList])
      | None => WakeupOne_loop rest
      end
  end.

Definition WakeupOne (lock : Lock) (wl : Slots) : Outcome :=
  if assert_holds (owns_lock lock) then Some (WakeupOne_loop wl) else None.

(** The range-for of [WakeupAll]. *)
Fixpoint WakeupAll_loop (wl : Slots) : list Event :=
  match wl with
  | [] => []
  | context :: rest =>
      match context with
      | Some c => EvWakeup c kWaitList :: WakeupAll_loop rest
      | None => WakeupAll_loop rest
      end
  end.

Definition WakeupAll (lock : Lock) (wl : Slots) : Outcome :=
  if assert_holds (owns_lock lock) then Some ([], WakeupAll_loop wl)
  else None.

(** [std::find(first, last, context)] as the offset from [first], [None]
    for [last]. *)
Fixpoint find (wl : Slots) (context : option handle) : option nat :=
  match wl with
  | [] => None
  | slot :: rest =>
      if decide (slot = context) then Some 0
      else match find rest context with
           | Some i => Some (S i)
           | None => None
           end
  end.

Definition Remove (context : option handle) (wl : Slots) : Outcome :=
  match find wl context with
  | None => Some (wl, [])
  | Some it =>
      let wl' := <[it := None]> wl in
      if assert_holds
           (bool_decide (find (drop (S it) wl') context = None))
      then Some (wl', [])
      else None
  end.

End Build.

(** The contexts waiting, in list order: the slots not reset. *)
Definition waiters (wl : Slots) : list handle := omap id wl.

(** The [Wakeup] calls of a wake-up of the contexts [cs], in order. *)
Definition wakeups (cs : list handle) : list Event :=
  (fun c => EvWakeup c kWaitList) <$> cs.

(** In how many slots the context [c] is held. *)
Definition slots_holding (c : handle) (wl : Slots) : nat :=
  length (filter (fun slot => slot = Some c) wl).

(** [WakeupOne] called [k] times in a row. *)
Fixpoint WakeupOne_times (NDEBUG : bool) (lock : Lock) (k : nat) (wl : Slots)
  : Outcome :=
  match k with
  | O => Some (wl, [])
  | S k' =>
      match WakeupOne NDEBUG lock wl with
      | None => None
      | Some (wl', woken) =>
          match WakeupOne_times NDEBUG lock k' wl' with
          | None => None
          | Some (wl'', woken') => Some (wl'', woken ++ woken')
          end
      end
  end.

End WaitList.

(** ** Runs of the task processor *)

Module Runs.
Import TaskProcessor.

(** The steady clock moves on to [t]: time passing between two calls. *)
Definition clock_advances (t : time_point) : M unit :=
  fun w => (tt, mkWorld (proc w) (task_count w) (contexts w) t (trace w)).

(** What one thread does to a processor through the functions above. *)
Inductive Op :=
| OpSchedule (context : handle)
| OpCheckWaitTime (context : handle)
| OpClock (t : time_point).

Definition run_op (op : Op) : M unit :=
  match op with
  | OpSchedule context => Schedule context
  | OpCheckWaitTime context => CheckWaitTime context
  | OpClock t => clock_advances t
  end.

Fixpoint run (ops : list Op) : M unit :=
  match ops with
  | [] => mret tt
  | op :: rest => run_op op ;; run rest
  end.

(** The contexts a run schedules, in order. *)
Fixpoint scheduled (ops : list Op) : list handle :=
  match ops with
  | [] => []
  | OpSchedule context :: rest => context :: scheduled rest
  | _ :: rest => scheduled rest
  end.

(** A call that is a clock read or, for one of the contexts [cs], the
    taking of a reference or the enqueue. *)
Definition plain_call (cs : list handle) (e : Event) : Prop :=
  e = EvSteadyClockNow
  \/ exists c, c ∈ cs /\ (e = EvIntrusivePtrAddRef c \/ e = EvEnqueue c).

End Runs.

(** ** The worker loop, adoption and destruction *)

Module Lifecycle.
Import TaskProcessor.

(** The calls of these functions: those of [Event], made through the
    functions above, and four more. *)
Inductive Call :=
| CallEvent (e : Event)
| CallDoStep (context : handle)
| CallIntrusivePtrRelease (context : handle)
| CallWaitForExhaustion
| CallJoin (worker : nat).

Global Instance Call_eq_dec : EqDecision Call.
Proof. solve_decision. Defined.

(** How a call of [DoStep] ends: it returns, or throws an exception that
    [catch (const std::exception&)] catches, or throws another one. *)
Inductive StepOutcome :=
| StepReturned
| StepThrewStdException
| StepThrewOther.

(** The processor with the members and the context state that [Adopt],
    [ProcessTasks] and the destructor use.
    Modelled from the spec: the class is declared in task_processor.hpp and
    the contexts in task_context.hpp; [detached_contexts_] is a set of
    context pointers, [workers_] is given by the number of its threads,
    [detached] and [finished] are the contexts for which [IsDetached()] and
    [IsFinished()] are true. *)
Record Processor := mkProcessor {
  world : World;
  is_running_ : bool;
  workers_ : nat;
  detached_contexts_ : gset handle;
  detached : gset handle;
  finished : gset handle;
  made : list Call
}.

Global Instance StepOutcome_eq_dec : EqDecision StepOutcome.
Proof. solve_decision. Defined.

(** Why the program stops: a failed [assert], or [std::terminate]. *)
Inductive Halt := AssertionFailed | Terminated.

Inductive Result (A : Type) :=
| Done (a : A) (p : Processor)
| Halted (h : Halt).
Arguments Done {A} a p.
Arguments Halted {A} h.

Definition P (A : Type) : Type := Processor -> Result A.

Global Instance P_ret : MRet P := fun A a p => Done a p.
Global Instance P_bind : MBind P :=
  fun A B k m p =>
    match m p with
    | Done a p' => k a p'
    | Halted h => Halted h
    end.

Definition reads {A} (f : Processor -> A) : P A := fun p => Done (f p) p.

Definition halt {A} (h : Halt) : P A := fun _ => Halted h.

Definition record (c : Call) : P unit :=
  fun p => Done tt (mkProcessor (world p) (is_running_ p) (workers_ p)
                      (detached_contexts_ p) (detached p) (finished p)
                      (made p ++ [c])).

(** A function of the task processor above, run on [world]; its calls are
    recorded among the calls made. *)
Definition lift {A} (m : M A) : P A :=
  fun p =>
    Done (fst (m (world p)))
         (mkProcessor (snd (m (world p))) (is_running_ p) (workers_ p)
            (detached_contexts_ p) (detached p) (finished p)
            (made p ++ (CallEvent <$> calls m (world p)))).

Definition set_is_shutting_down (b : bool) (s : State) : State :=
  mkState b (task_queue_size_ s)
          (max_task_queue_wait_time_ s) (max_task_queue_wait_length_ s)
          (overload_action_ s) (task_queue_wait_time_overloaded_ s)
          (task_queue_ s).

Definition set_is_running (b : bool) : P unit :=
  fun p => Done tt (mkProcessor (world p) b (workers_ p)
                      (detached_contexts_ p) (detached p) (finished p)
                      (made p)).

Definition set_detached_contexts (s : gset handle) : P unit :=
  fun p => Done tt (mkProcessor (world p) (is_running_ p) (workers_ p)
                      s (detached p) (finished p) (made p)).

(** *** Task context methods *)

Definition SetDetached (context : handle) : P unit :=
  fun p => Done tt (mkProcessor (world p) (is_running_ p) (workers_ p)
                      (detached_contexts_ p) ({[context]} ∪ detached p)
                      (finished p) (made p)).

Definition IsDetached (context : handle) : P bool :=
  reads (fun p => bool_decide (context ∈ detached p)).

Definition IsFinished (context : handle) : P bool :=
  reads (fun p => bool_decide (context ∈ finished p)).

(** *** [detached_contexts_] *)

(** [insert]: yields [result.second], whether the element was put in. *)
Definition insert_detached (context : handle) : P bool :=
  present ← reads (fun p => bool_decide (context ∈ detached_contexts_ p));
  contexts ← reads detached_contexts_;
  set_detached_contexts ({[context]} ∪ contexts) ;;
  mret (negb present).

(** [erase]: the element, when there is one, is destroyed, which drops the
    reference it holds. *)
Definition erase_detached (context : handle) : P unit :=
  reads (fun p => bool_decide (context ∈ detached_contexts_ p))
  ≫= fun present : bool =>
  if present then
    contexts ← reads detached_contexts_;
    set_detached_contexts (contexts ∖ {[context]}) ;;
    record (CallIntrusivePtrRelease context)
  else mret tt.

Section Build.

(** Whether the build defines [NDEBUG]. *)
Variable NDEBUG : bool.

Definition assert (condition : bool) : P unit :=
  if NDEBUG || condition then mret tt else halt AssertionFailed.

(** [Adopt]; the pointer given is not null. *)
Definition Adopt (context_ptr : handle) : P unit :=
  SetDetached context_ptr ;;
  IsFinished context_ptr ≫= fun is_finished : bool =>
  if is_finished then
    record (CallIntrusivePtrRelease context_ptr)
  else
    inserted ← insert_detached context_ptr;
    assert inserted.

(** The order in which [detached_contexts_] yields its elements to a
    range-for, and the order in which it destroys them when it is itself
    destroyed.
    Modelled from the spec: the set is a hash set keyed by the context
    pointer, declared in task_processor.hpp; the orders are those of its
    buckets, so they are left open here. *)
Variable iteration_order : gset handle -> list handle.
Variable destruction_order : gset handle -> list handle.

(** The range-for of the destructor, over the elements in the order the
    set yields them. *)
Fixpoint cancel_all (contexts : list handle) : P unit :=
  match contexts with
  | [] => mret tt
  | context :: rest =>
      lift (RequestCancel context kShutdown) ;; cancel_all rest
  end.

Fixpoint join_all (workers : list nat) : P unit :=
  match workers with
  | [] => mret tt
  | w :: rest => record (CallJoin w) ;; join_all rest
  end.

(** The body of the destructor; [counter] is what
    [task_counter_.GetCurrentValue()] returns at its end. *)
Definition destructor_body (counter : Z) : P unit :=
  lift (store_proc (set_is_shutting_down true)) ;;
  contexts ← reads detached_contexts_;
  cancel_all (iteration_order contexts) ;;
  record CallWaitForExhaustion ;;
  set_is_running false ;;
  workers ← reads workers_;
  join_all (seq 0 workers) ;;
  assert (counter =? 0)%Z.

(** The destruction of [detached_contexts_]: each pointer it holds is
    destroyed, which drops the reference it holds. *)
Fixpoint release_all (contexts : list handle) : P unit :=
  match contexts with
  | [] => mret tt
  | context :: rest =>
      record (CallIntrusivePtrRelease context) ;; release_all rest
  end.

Definition destroy_detached_contexts : P unit :=
  contexts ← reads detached_contexts_;
  release_all (destruction_order contexts) ;;
  set_detached_contexts ∅.

(** The destructor: its body, then the destruction of the members.  Of
    these, [detached_contexts_] is the one that makes calls recorded here;
    the workers have been joined and the queue holds plain pointers. *)
Definition destructor (counter : Z) : P unit :=
  destructor_body counter ;;
  destroy_detached_contexts.

End Build.

Section Worker.

(** What [context->DoStep()] does. *)
Variable DoStep : handle -> Processor -> StepOutcome * Processor.

(** [--task_queue_size_] *)
Definition decrement_task_queue_size : M unit :=
  size ← load task_queue_size_;
  store_proc (set_task_queue_size (size_t_wrap (size - 1))).

(** The body of the loop of [ProcessTasks] for a context dequeued: up to
    the call of [DoStep], the call, and what follows it. *)
Definition before_step (context : handle) : P unit :=
  lift decrement_task_queue_size ;;
  lift (CheckWaitTime context) ;;
  record (CallDoStep context).

Definition step (context : handle) : P StepOutcome :=
  fun p => Done (fst (DoStep context p)) (snd (DoStep context p)).

Definition after_step (context : handle) (outcome : StepOutcome) : P unit :=
  match outcome with
  | StepThrewOther => halt Terminated
  | _ =>
      let has_failed :=
        match outcome with StepThrewStdException => true | _ => false end in
      is_detached ← IsDetached context;
      is_finished ← IsFinished context;
      (if has_failed || (is_detached && is_finished)
       then erase_detached context else mret tt) ;;
      record (CallIntrusivePtrRelease context)
  end.

Definition ProcessTask (context : handle) : P unit :=
  before_step context ;;
  outcome ← step context;
  after_step context outcome.

(** [ProcessTasks], with one script for each call of [DequeueTask]: [true]
    when the loop is left, [false] when the scripts end first. *)
Fixpoint ProcessTasks (scripts : list (list DequeueOutcome)) : P bool :=
  match scripts with
  | [] => mret false
  | script :: rest =>
      buf ← lift (DequeueTask script);
      match buf with
      | None => mret false
      | Some None => mret true
      | Some (Some context) => ProcessTask context ;; ProcessTasks rest
      end
  end.

End Worker.

(** An order lists a set when it has each element of the set once and
    nothing else. *)
Definition lists_each_once (order : gset handle -> list handle) : Prop :=
  forall s, NoDup (order s) /\ forall c, c ∈ order s <-> c ∈ s.

(** The contexts on which [DoStep] is called, in order, among some
    calls. *)
Definition stepped (cs : list Call) : list handle :=
  omap (fun c => match c with CallDoStep context => Some context
                            | _ => None end) cs.

(** Unfolds the functions down to functions on [Processor]. *)
Ltac run_life :=
  unfold Adopt, assert, insert_detached, erase_detached, IsFinished,
    IsDetached, SetDetached, set_detached_contexts, set_is_running, record,
    reads, halt, mbind, P_bind, mret, P_ret; cbn.

End Lifecycle.

(** ** The statistics of a handler method *)

Module HttpHandlerMethodStatistics.

(** Calls into [reply_codes_] and into the current counter of [timings_],
    whose classes are declared elsewhere. *)
Inductive StatCall :=
| CallReplyCodesAccount (code : Z)
| CallTimingsAccount (ms : Z).

(** The object: [in_flight_], a [size_t], and the calls it has made. *)
Record Statistics := mkStatistics {
  in_flight_ : Z;
  stat_calls : list StatCall
}.

(** As the member initialisers leave it. *)
Definition constructed : Statistics := mkStatistics 0 [].

Definition Account (code ms : Z) (s : Statistics) : Statistics :=
  mkStatistics (in_flight_ s)
    (stat_calls s ++ [CallReplyCodesAccount code; CallTimingsAccount ms]).

Definition GetInFlight (s : Statistics) : Z := in_flight_ s.

Definition IncrementInFlight (s : Statistics) : Statistics :=
  mkStatistics (TaskProcessor.size_t_wrap (in_flight_ s + 1)) (stat_calls s).

Definition DecrementInFlight (s : Statistics) : Statistics :=
  mkStatistics (TaskProcessor.size_t_wrap (in_flight_ s - 1)) (stat_calls s).

(** A use of the object. *)
Inductive Op :=
| OpAccount (code ms : Z)
| OpIncrementInFlight
| OpDecrementInFlight.

Definition run_op (op : Op) (s : Statistics) : Statistics :=
  match op with
  | OpAccount code ms => Account code ms s
  | OpIncrementInFlight => IncrementInFlight s
  | OpDecrementInFlight => DecrementInFlight s
  end.

Definition run (ops : list Op) (s : Statistics) : Statistics :=
  fold_left (fun s op => run_op op s) ops s.

(** By how much the uses would change an unbounded count. *)
Fixpoint balance (ops : list Op) : Z :=
  match ops with
  | [] => 0
  | OpIncrementInFlight :: rest => 1 + balance rest
  | OpDecrementInFlight :: rest => -1 + balance rest
  | OpAccount _ _ :: rest => balance rest
  end.

(** The figures accounted, in order. *)
Fixpoint accounted (ops : list Op) : list StatCall :=
  match ops with
  | [] => []
  | OpAccount code ms :: rest =>
      CallReplyCodesAccount code :: CallTimingsAccount ms :: accounted rest
  | _ :: rest => accounted rest
  end.

End HttpHandlerMethodStatistics.

(** * Checks on concrete inputs *)

Module Examples.
Import TaskProcessor.

Definition state0 : State :=
  mkState false 0%Z 0%Z 0%Z kIgnore false [].

Definition world0 : World :=
  mkWorld state0 0%Z (fun _ => mkTaskContext false 0%Z) 1000000%Z [].

(** A processor with a length limit of 2, cancelling on overload, with two
    tasks already queued. *)
Definition world_full : World :=
  mkWorld (mkState false 2%Z 0%Z 2%Z kCancel false [10; 11]) 0%Z
          (fun c => mkTaskContext (Nat.eqb c 7) 0%Z) 1000000%Z [].

(** The same processor with one task queued. *)
Definition world_almost_full : World :=
  mkWorld (mkState false 1%Z 0%Z 2%Z kCancel false [10]) 0%Z
          (fun c => mkTaskContext (Nat.eqb c 7) 0%Z) 1000000%Z [].

(** A processor that is shutting down. *)
Definition world_shutdown : World :=
  mkWorld (mkState true 0%Z 0%Z 0%Z kIgnore false []) 0%Z
          (fun _ => mkTaskContext false 0%Z) 1000000%Z [].

(** A processor with a wait limit of 10 microseconds and contexts stamped
    at tick 1. *)
Definition world_waiting : World :=
  mkWorld (mkState false 1%Z 10%Z 0%Z kCancel false []) 0%Z
          (fun _ => mkTaskContext false 1%Z) 1000000%Z [].

(** A processor with a length limit of 4, cancelling on overload, with an
    empty queue; context 11 is critical. *)
Definition world_limit4 : World :=
  mkWorld (mkState false 0%Z 0%Z 4%Z kCancel false []) 0%Z
          (fun c => mkTaskContext (Nat.eqb c 11) 0%Z) 1000000%Z [].

(** The same limit, the clock at one millisecond; context 7 is critical
    and stamped at tick 1, the others are not critical and not stamped. *)
Definition world_critical_waiting : World :=
  mkWorld (mkState false 2%Z 10%Z 0%Z kCancel false [7; 8]) 2%Z
          (fun c => mkTaskContext (Nat.eqb c 7)
                      (if Nat.eqb c 7 then 1%Z else 0%Z))
          1000000%Z [].

(** A wait limit whose count in ticks does not fit in [int64_t]; the
    contexts are stamped at tick 1. *)
Definition world_limit_beyond_int64 : World :=
  mkWorld (mkState false 1%Z 9223372036854776%Z 0%Z kCancel false []) 0%Z
          (fun _ => mkTaskContext false 1%Z) 1000000%Z [].

(** A processor with two workers and nothing adopted. *)
Definition processor0 : Lifecycle.Processor :=
  Lifecycle.mkProcessor world0 true 2 ∅ ∅ ∅ [].

(** A [DoStep] that finishes the task and does nothing else. *)
Definition finishing_step (c : handle) (p : Lifecycle.Processor)
  : Lifecycle.StepOutcome * Lifecycle.Processor :=
  (Lifecycle.StepReturned,
   Lifecycle.mkProcessor (Lifecycle.world p) (Lifecycle.is_running_ p)
     (Lifecycle.workers_ p) (Lifecycle.detached_contexts_ p)
     (Lifecycle.detached p) ({[c]} ∪ Lifecycle.finished p)
     (Lifecycle.made p)).

Example Schedule_full_noncritical :
  let w := snd (Schedule 5 world_full) in
  trace w = [EvAccountTaskOverload; EvRequestCancel 5 kOverload;
             EvAccountTaskCancelOverload; EvSteadyClockNow;
             EvIntrusivePtrAddRef 5; EvEnqueue 5]
  /\ task_queue_ (proc w) = [10; 11; 5]
  /\ task_queue_size_ (proc w) = 3%Z
  /\ queue_wait_timepoint (contexts w 5) = 1000000%Z.
Proof. vm_compute. auto. Qed.

Example Schedule_full_critical :
  let w := snd (Schedule 7 world_full) in
  trace w = [EvSteadyClockNow; EvIntrusivePtrAddRef 7; EvEnqueue 7]
  /\ task_queue_ (proc w) = [10; 11; 7].
Proof. vm_compute. auto. Qed.

Example DequeueTask_stop :
  DequeueTask [TimedOut true; TimedOut true; TimedOut false; Produced 3] world0
  = (Some None,
     mkWorld state0 0%Z (contexts world0) 1000000%Z
             [EvAccountTaskSwitchSlow; EvAccountTaskSwitchSlow]).
Proof. reflexivity. Qed.

Example WakeupOne_skips :
  WaitList.WakeupOne false (WaitList.mkLock true) [None; None; Some 4; Some 5]
  = Some ([Some 5], [EvWakeup 4 kWaitList]).
Proof. reflexivity. Qed.

Example Remove_middle :
  WaitList.Remove false (Some 4) [Some 3; Some 4; Some 5]
  = Some ([Some 3; None; Some 5], []).
Proof. reflexivity. Qed.

Example Remove_duplicate_debug :
  WaitList.Remove false (Some 4) [Some 4; Some 4] = None.
Proof. reflexivity. Qed.

Example Remove_duplicate_ndebug :
  WaitList.Remove true (Some 4) [Some 4; Some 4] = Some ([None; Some 4], []).
Proof. reflexivity. Qed.

(** Ten contexts that are not critical and then a critical one, scheduled
    with no worker dequeuing: the first four pass, the next six are
    cancelled for overload, the critical one is not. *)
Example Schedule_length_overload :
  let evs := calls (ScheduleAll (seq 1 11)) world_limit4 in
  occurrences EvAccountTaskOverload evs = 6
  /\ occurrences EvAccountTaskCancelOverload evs = 6
  /\ List.filter (fun e => match e with EvRequestCancel _ _ => true
                                       | _ => false end) evs
     = (fun c => EvRequestCancel c kOverload) <$> seq 5 6
  /\ task_queue_ (proc (snd (ScheduleAll (seq 1 11) world_limit4)))
     = seq 1 11.
Proof. vm_compute. auto. Qed.

(** A wait of under a millisecond against a limit of 9223372036854776
    microseconds: the limit in ticks has wrapped around below zero, so the
    wait counts as having reached it. *)
Example CheckWaitTime_limit_beyond_int64 :
  let w := snd (CheckWaitTime 5 world_limit_beyond_int64) in
  int64_wrap (9223372036854776 * ticks_per_microsecond)
  = (-9223372036854775616)%Z
  /\ task_queue_wait_time_overloaded_ (proc w) = true
  /\ trace w = [EvSteadyClockNow; EvAccountTaskOverload;
                EvRequestCancel 5 kOverload; EvAccountTaskCancelOverload].
Proof. vm_compute. auto. Qed.

(** The same wait against a limit of -9223372036854776 microseconds: the
    limit in ticks has wrapped around above the wait, which so counts as
    not having reached it. *)
Example CheckWaitTime_limit_below_int64 :
  let w0 :=
    mkWorld (mkState false 1%Z (-9223372036854776)%Z 0%Z kCancel false [])
      0%Z (fun _ => mkTaskContext false 1%Z) 1000000%Z [] in
  let w := snd (CheckWaitTime 5 w0) in
  int64_wrap (-9223372036854776 * ticks_per_microsecond)
  = 9223372036854775616%Z
  /\ task_queue_wait_time_overloaded_ (proc w) = false
  /\ trace w = [EvSteadyClockNow].
Proof. vm_compute. auto. Qed.

(** Five contexts appended, two of them removed, then all woken. *)
Example WakeupAll_after_two_removed :
  let lock := WaitList.mkLock true in
  let wl := [Some 1; Some 2; Some 3; Some 4; Some 5] in
  (wl' ← fst <$> WaitList.Remove false (Some 2) wl;
   wl'' ← fst <$> WaitList.Remove false (Some 4) wl';
   WaitList.WakeupAll false lock wl'')
  = Some ([], [EvWakeup 1 kWaitList; EvWakeup 3 kWaitList;
               EvWakeup 5 kWaitList]).
Proof. reflexivity. Qed.

End Examples.

(** * Properties of the task processor *)

Module TaskProcessorFacts.
Import TaskProcessor.
Local Open Scope Z_scope.

Lemma calls_app {A} (m : M A) (w : World) (evs : list Event) :
  trace (snd (m w)) = trace w ++ evs -> calls m w = evs.
Proof. intros E. unfold calls. rewrite E. apply drop_app_length. Qed.

(** What [HandleOverload] does: it only extends the trace. *)
Lemma HandleOverload_world (c : handle) (w : World) :
  snd (HandleOverload c w) =
  mkWorld (proc w) (task_count w) (contexts w) (steady_clock_now w)
    (trace w ++ EvAccountTaskOverload ::
       match overload_action_ (proc w) with
       | kCancel =>
           if is_critical (contexts w c) then []
           else [EvRequestCancel c kOverload; EvAccountTaskCancelOverload]
       | kIgnore => []
       end).
Proof.
  run. destruct (overload_action_ (proc w)); cbn.
  - reflexivity.
  - destruct (is_critical (contexts w c)); cbn; rewrite <- ?app_assoc;
      reflexivity.
Qed.

Lemma HandleOverload_calls (c : handle) (w : World) :
  calls (HandleOverload c) w =
  EvAccountTaskOverload ::
    match overload_action_ (proc w) with
    | kCancel =>
        if is_critical (contexts w c) then []
        else [EvRequestCancel c kOverload; EvAccountTaskCancelOverload]
    | kIgnore => []
    end.
Proof. apply calls_app. rewrite HandleOverload_world. reflexivity. Qed.

(** C2.  [HandleOverload] accounts one task overload whatever the settings
    and the context are.  When [overload_action_] is [kCancel] and the
    context is not critical it then calls [RequestCancel] with [kOverload]
    on the context and accounts one cancel due to overload; in every other
    case it does neither, so a critical context is never cancelled by it. *)
Theorem HandleOverload_accounts (c : handle) (w : World) :
  let w' := snd (HandleOverload c w) in
  let evs := calls (HandleOverload c) w in
  trace w' = trace w ++ evs
  /\ proc w' = proc w
  /\ occurrences EvAccountTaskOverload evs = 1%nat
  /\ (overload_action_ (proc w) = kCancel /\
      is_critical (contexts w c) = false ->
      evs = [EvAccountTaskOverload; EvRequestCancel c kOverload;
             EvAccountTaskCancelOverload])
  /\ (~ (overload_action_ (proc w) = kCancel /\
         is_critical (contexts w c) = false) ->
      evs = [EvAccountTaskOverload])
  /\ (is_critical (contexts w c) = true ->
      forall c' r, EvRequestCancel c' r ∉ evs).
Proof.
  cbv zeta. rewrite HandleOverload_calls, HandleOverload_world. cbn.
  destruct (overload_action_ (proc w)), (is_critical (contexts w c));
    cbn; repeat split; try reflexivity; try congruence;
    intros; try (exfalso; intuition congruence); not_among.
Qed.

Lemma HandleOverload_accounts_witness :
  calls (HandleOverload 5%nat) Examples.world_full =
  [EvAccountTaskOverload; EvRequestCancel 5%nat kOverload;
   EvAccountTaskCancelOverload]
  /\ forall c' r,
      EvRequestCancel c' r ∉ calls (HandleOverload 7%nat) Examples.world_full.
Proof.
  split.
  - apply (HandleOverload_accounts 5%nat Examples.world_full).
    split; reflexivity.
  - apply (HandleOverload_accounts 7%nat Examples.world_full).
    reflexivity.
Defined.

(** What [Schedule] does, field by field. *)
Lemma Schedule_world (c : handle) (w : World) :
  let s := proc w in
  let over := negb (max_task_queue_wait_length_ s =? 0)
              && negb (is_critical (contexts w c))
              && (max_task_queue_wait_length_ s <=? task_queue_size_ s) in
  let stamp := task_count w mod kTaskTimestampFrequency =? 0 in
  snd (Schedule c w) =
  mkWorld
    (mkState (is_shutting_down_ s) (size_t_wrap (task_queue_size_ s + 1))
       (max_task_queue_wait_time_ s) (max_task_queue_wait_length_ s)
       (overload_action_ s) (task_queue_wait_time_overloaded_ s)
       (task_queue_ s ++ [c]))
    (size_t_wrap (task_count w + 1))
    (fun c' =>
       if Nat.eqb c' c
       then mkTaskContext (is_critical (contexts w c'))
              (if stamp then steady_clock_now w else time_point_zero)
       else contexts w c')
    (steady_clock_now w)
    (trace w
       ++ (if over then calls (HandleOverload c) w else [])
       ++ (if is_shutting_down_ s then [EvRequestCancel c kShutdown] else [])
       ++ (if stamp then [EvSteadyClockNow] else [])
       ++ [EvIntrusivePtrAddRef c; EvEnqueue c]).
Proof.
  cbv zeta. rewrite HandleOverload_calls.
  destruct w as [[sd size mt ml action flag queue] tc ctxs now tr].
  cbn [proc task_count contexts steady_clock_now trace is_shutting_down_
       task_queue_size_ max_task_queue_wait_time_ max_task_queue_wait_length_
       overload_action_ task_queue_wait_time_overloaded_ task_queue_].
  destruct (ml =? 0) eqn:E1, (is_critical (ctxs c)) eqn:E2,
    (ml <=? size) eqn:E3, sd, (tc mod kTaskTimestampFrequency =? 0) eqn:E4,
    action; run;
    repeat (progress (rewrite ?E1, ?E2, ?E3, ?E4; cbn));
    rewrite <- ?app_assoc; reflexivity.
Qed.

Lemma Schedule_calls (c : handle) (w : World) :
  let s := proc w in
  calls (Schedule c) w =
    (if negb (max_task_queue_wait_length_ s =? 0)
        && negb (is_critical (contexts w c))
        && (max_task_queue_wait_length_ s <=? task_queue_size_ s)
     then calls (HandleOverload c) w else [])
    ++ (if is_shutting_down_ s then [EvRequestCancel c kShutdown] else [])
    ++ (if task_count w mod kTaskTimestampFrequency =? 0
        then [EvSteadyClockNow] else [])
    ++ [EvIntrusivePtrAddRef c; EvEnqueue c].
Proof. apply calls_app. rewrite Schedule_world. reflexivity. Qed.

Lemma int64_wrap_id (z : Z) : in_int64 z -> int64_wrap z = z.
Proof.
  unfold in_int64, int64_wrap. intros H.
  rewrite Z.mod_small by lia. lia.
Qed.

Lemma int64_wrap_in_int64 (z : Z) : in_int64 (int64_wrap z).
Proof.
  unfold in_int64, int64_wrap.
  pose proof (Z.mod_pos_bound (z + 2 ^ 63) (2 ^ 64) ltac:(lia)). lia.
Qed.

(** What [CheckWaitTime] does: the flag it leaves, then the handler. *)
Lemma CheckWaitTime_world (c : handle) (w : World) :
  let s := proc w in
  let max_wait_time := max_task_queue_wait_time_ s in
  let wait_timepoint := queue_wait_timepoint (contexts w c) in
  let measured := negb (wait_timepoint =? time_point_zero) in
  let overloaded :=
    if measured
    then int64_wrap (max_wait_time * ticks_per_microsecond)
         <=? int64_wrap (steady_clock_now w - wait_timepoint)
    else task_queue_wait_time_overloaded_ s in
  let w1 :=
    mkWorld (set_task_queue_wait_time_overloaded overloaded s)
      (task_count w) (contexts w) (steady_clock_now w)
      (trace w ++ if measured then [EvSteadyClockNow] else []) in
  snd (CheckWaitTime c w) =
  if max_wait_time =? 0 then
    mkWorld (set_task_queue_wait_time_overloaded false s)
      (task_count w) (contexts w) (steady_clock_now w) (trace w)
  else if overloaded then snd (HandleOverload c w1) else w1.
Proof.
  cbv zeta. rewrite HandleOverload_world.
  destruct w as [[sd size mt ml action flag queue] tc ctxs now tr].
  cbn [proc task_count contexts steady_clock_now trace is_shutting_down_
       task_queue_size_ max_task_queue_wait_time_ max_task_queue_wait_length_
       overload_action_ task_queue_wait_time_overloaded_ task_queue_
       set_task_queue_wait_time_overloaded].
  destruct (mt =? 0) eqn:E1; [run; rewrite E1; reflexivity |].
  destruct (queue_wait_timepoint (ctxs c) =? time_point_zero) eqn:E2;
    cbn [negb].
  - destruct flag, action, (is_critical (ctxs c)) eqn:E3; run;
      repeat (progress (rewrite ?E1, ?E2, ?E3; cbn));
      rewrite <- ?app_assoc, ?app_nil_r; reflexivity.
  - destruct (int64_wrap (mt * ticks_per_microsecond)
              <=? int64_wrap (now - queue_wait_timepoint (ctxs c))) eqn:E4;
      destruct action, (is_critical (ctxs c)) eqn:E3; run;
      repeat (progress (rewrite ?E1, ?E2, ?E3, ?E4; cbn));
      rewrite <- ?app_assoc, ?app_nil_r; reflexivity.
Qed.

(** C1.  [CheckWaitTime] with a zero [max_task_queue_wait_time_] clears
    [task_queue_wait_time_overloaded_] and makes no call at all.  With a
    nonzero one, a context whose time point is the zero sentinel leaves the
    flag as it was, and a context with a real time point sets it to the
    outcome of the comparison of the two [int64_t] tick counts, which is
    whether now minus the time point is at least the maximum whenever both
    durations fit in [int64_t] ticks (a maximum of up to 9223372036854775
    microseconds either way); [HandleOverload] then runs on the context
    exactly when the flag, so updated, is true. *)
Theorem CheckWaitTime_spec (c : handle) (w : World) :
  let s := proc w in
  let max_wait_time := max_task_queue_wait_time_ s in
  let wait_timepoint := queue_wait_timepoint (contexts w c) in
  let w' := snd (CheckWaitTime c w) in
  let overloaded' := task_queue_wait_time_overloaded_ (proc w') in
  (max_wait_time = 0 ->
     overloaded' = false /\ calls (CheckWaitTime c) w = [])
  /\ (max_wait_time <> 0 ->
      (wait_timepoint = time_point_zero ->
         overloaded' = task_queue_wait_time_overloaded_ s)
      /\ (wait_timepoint <> time_point_zero ->
          overloaded' =
          (int64_wrap (max_wait_time * ticks_per_microsecond)
           <=? int64_wrap (steady_clock_now w - wait_timepoint))
          /\ (in_int64 (max_wait_time * ticks_per_microsecond) ->
              in_int64 (steady_clock_now w - wait_timepoint) ->
              overloaded' =
              (max_wait_time * ticks_per_microsecond
               <=? steady_clock_now w - wait_timepoint)))
      /\ (let w1 :=
            mkWorld (set_task_queue_wait_time_overloaded overloaded' s)
              (task_count w) (contexts w) (steady_clock_now w)
              (trace w ++ if wait_timepoint =? time_point_zero
                          then [] else [EvSteadyClockNow]) in
          w' = if overloaded' then snd (HandleOverload c w1) else w1)
      /\ occurrences EvAccountTaskOverload (calls (CheckWaitTime c) w)
         = if overloaded' then 1%nat else 0%nat).
Proof.
  cbv zeta. unfold calls. rewrite CheckWaitTime_world.
  destruct w as [[sd size mt ml action flag queue] tc ctxs now tr].
  cbn [proc task_count contexts steady_clock_now trace is_shutting_down_
       task_queue_size_ max_task_queue_wait_time_ max_task_queue_wait_length_
       overload_action_ task_queue_wait_time_overloaded_ task_queue_
       set_task_queue_wait_time_overloaded].
  destruct (Z.eqb_spec mt 0) as [E1 | E1].
  - split; [intros _ | intros; contradiction].
    cbn. rewrite drop_all. auto.
  - split; [intros; contradiction | intros _].
    destruct (Z.eqb_spec (queue_wait_timepoint (ctxs c)) time_point_zero)
      as [E2 | E2]; cbn [negb].
    + destruct flag; rewrite ?HandleOverload_world;
        cbn [proc task_count contexts steady_clock_now trace
             is_shutting_down_ task_queue_size_ max_task_queue_wait_time_
             max_task_queue_wait_length_ overload_action_
             task_queue_wait_time_overloaded_ task_queue_];
        rewrite ?app_nil_r, ?drop_app_length, ?drop_all;
        repeat split; intros; try contradiction; try reflexivity.
      destruct action, (is_critical (ctxs c)); reflexivity.
    + destruct (int64_wrap (mt * ticks_per_microsecond)
                <=? int64_wrap (now - queue_wait_timepoint (ctxs c)))
        eqn:E4;
        rewrite ?HandleOverload_world;
        cbn [proc task_count contexts steady_clock_now trace
             is_shutting_down_ task_queue_size_ max_task_queue_wait_time_
             max_task_queue_wait_length_ overload_action_
             task_queue_wait_time_overloaded_ task_queue_];
        rewrite <- ?app_assoc, ?drop_app_length;
        repeat split; intros; try contradiction; try reflexivity;
        try match goal with
            | H0 : in_int64 _, H1 : in_int64 _ |- _ =>
                rewrite (int64_wrap_id _ H0), (int64_wrap_id _ H1) in E4;
                rewrite E4
            end;
        destruct action, (is_critical (ctxs c)); reflexivity.
Qed.

Lemma CheckWaitTime_spec_witness :
  max_task_queue_wait_time_ (proc Examples.world_waiting) <> 0
  /\ queue_wait_timepoint (contexts Examples.world_waiting 5%nat)
     <> time_point_zero
  /\ in_int64 (max_task_queue_wait_time_ (proc Examples.world_waiting)
               * ticks_per_microsecond)
  /\ in_int64 (steady_clock_now Examples.world_waiting
               - queue_wait_timepoint (contexts Examples.world_waiting 5%nat))
  /\ task_queue_wait_time_overloaded_
       (proc (snd (CheckWaitTime 5%nat Examples.world_waiting))) = true
  /\ occurrences EvAccountTaskOverload
       (calls (CheckWaitTime 5%nat) Examples.world_waiting) = 1%nat.
Proof.
  assert (max_task_queue_wait_time_ (proc Examples.world_waiting) <> 0)
    as Hmax by (cbn; lia).
  assert (queue_wait_timepoint (contexts Examples.world_waiting 5%nat)
          <> time_point_zero) as Hreal by (cbn; unfold time_point_zero; lia).
  assert (in_int64 (max_task_queue_wait_time_ (proc Examples.world_waiting)
                    * ticks_per_microsecond))
    as Hlimit by (vm_compute; split; [discriminate | reflexivity]).
  assert (in_int64 (steady_clock_now Examples.world_waiting
                    - queue_wait_timepoint
                        (contexts Examples.world_waiting 5%nat)))
    as Hwait by (vm_compute; split; [discriminate | reflexivity]).
  destruct (CheckWaitTime_spec 5%nat Examples.world_waiting) as [_ H].
  destruct (H Hmax) as (_ & Hflag & _ & Hcalls).
  destruct (Hflag Hreal) as [_ Hge].
  split; [exact Hmax |]. split; [exact Hreal |].
  split; [exact Hlimit |]. split; [exact Hwait |].
  split; [rewrite (Hge Hlimit Hwait); reflexivity |].
  rewrite Hcalls, (Hge Hlimit Hwait). reflexivity.
Defined.

Lemma length_overload_iff (max_length size : Z) (critical : bool) :
  negb (max_length =? 0) && negb critical && (max_length <=? size) = true
  <-> max_length <> 0 /\ max_length <= size /\ critical = false.
Proof.
  destruct (Z.eqb_spec max_length 0), critical,
    (Z.leb_spec0 max_length size); cbn; intuition congruence.
Qed.

Lemma HandleOverload_calls_overload (c : handle) (w : World) :
  EvAccountTaskOverload ∈ calls (HandleOverload c) w.
Proof. rewrite HandleOverload_calls. apply elem_of_cons. auto. Qed.

Lemma HandleOverload_calls_no_enqueue (c c' : handle) (w : World) :
  EvEnqueue c' ∉ calls (HandleOverload c) w.
Proof.
  rewrite HandleOverload_calls.
  destruct (overload_action_ (proc w)), (is_critical (contexts w c));
    not_among.
Qed.

Lemma HandleOverload_calls_no_shutdown (c c' : handle) (w : World) :
  EvRequestCancel c' kShutdown ∉ calls (HandleOverload c) w.
Proof.
  rewrite HandleOverload_calls.
  destruct (overload_action_ (proc w)), (is_critical (contexts w c));
    not_among.
Qed.

(** The calls of [Schedule]: the handler's calls first, when the length
    check fires; the enqueue last, always. *)
Lemma Schedule_calls_shape (c : handle) (w : World) :
  let s := proc w in
  let overload := max_task_queue_wait_length_ s <> 0
                  /\ max_task_queue_wait_length_ s <= task_queue_size_ s
                  /\ is_critical (contexts w c) = false in
  let w' := snd (Schedule c w) in
  let evs := calls (Schedule c) w in
  trace w' = trace w ++ evs
  /\ (overload ->
      exists rest, evs = calls (HandleOverload c) w ++ rest
                   /\ (EvAccountTaskOverload ∉ rest)
                   /\ (EvEnqueue c ∈ rest))
  /\ (~ overload -> EvAccountTaskOverload ∉ evs)
  /\ (exists before, evs = before ++ [EvEnqueue c]
                     /\ forall c', EvEnqueue c' ∉ before)
  /\ task_queue_ (proc w') = task_queue_ s ++ [c].
Proof.
  cbv zeta. rewrite Schedule_calls, Schedule_world. cbv zeta.
  cbn [proc trace task_queue_].
  pose proof (length_overload_iff (max_task_queue_wait_length_ (proc w))
                (task_queue_size_ (proc w))
                (is_critical (contexts w c))) as Hiff.
  destruct (negb (max_task_queue_wait_length_ (proc w) =? 0)
            && negb (is_critical (contexts w c))
            && (max_task_queue_wait_length_ (proc w)
                <=? task_queue_size_ (proc w))).
  - repeat split.
    + intros _. eexists. split; [reflexivity |].
      destruct (is_shutting_down_ (proc w)),
        (task_count w mod kTaskTimestampFrequency =? 0); cbn;
        (split; [not_among | ]);
        rewrite !elem_of_cons; auto 10.
    + intros Hn. exfalso. apply Hn, Hiff. reflexivity.
    + exists (calls (HandleOverload c) w
              ++ (if is_shutting_down_ (proc w)
                  then [EvRequestCancel c kShutdown] else [])
              ++ (if task_count w mod kTaskTimestampFrequency =? 0
                  then [EvSteadyClockNow] else [])
              ++ [EvIntrusivePtrAddRef c]).
      split.
      * rewrite <- !app_assoc. reflexivity.
      * intros c'. rewrite elem_of_app.
        intros [H | H]; [exact (HandleOverload_calls_no_enqueue _ _ _ H) |].
        revert H.
        destruct (is_shutting_down_ (proc w)),
          (task_count w mod kTaskTimestampFrequency =? 0); cbn; not_among.
  - repeat split.
    + intros Ho. apply Hiff in Ho. discriminate.
    + intros _.
      destruct (is_shutting_down_ (proc w)),
        (task_count w mod kTaskTimestampFrequency =? 0); cbn; not_among.
    + exists ((if is_shutting_down_ (proc w)
               then [EvRequestCancel c kShutdown] else [])
              ++ (if task_count w mod kTaskTimestampFrequency =? 0
                  then [EvSteadyClockNow] else [])
              ++ [EvIntrusivePtrAddRef c]).
      split.
      * rewrite <- !app_assoc. reflexivity.
      * intros c'.
        destruct (is_shutting_down_ (proc w)),
          (task_count w mod kTaskTimestampFrequency =? 0); cbn; not_among.
Qed.

(** C3.  [Schedule] runs the overload handler on the context exactly when
    [max_task_queue_wait_length_] is nonzero, [task_queue_size_] has reached
    it and the context is not critical, and it does so first.  Whatever the
    state (overload or not, shutting down or not) its last call is the
    enqueue of the context, which is made once, and the context is then at
    the tail of the task queue. *)
Theorem Schedule_overload_and_enqueue (c : handle) (w : World) :
  let s := proc w in
  let overload := max_task_queue_wait_length_ s <> 0
                  /\ max_task_queue_wait_length_ s <= task_queue_size_ s
                  /\ is_critical (contexts w c) = false in
  let w' := snd (Schedule c w) in
  let evs := calls (Schedule c) w in
  trace w' = trace w ++ evs
  /\ (overload ->
      exists rest, evs = calls (HandleOverload c) w ++ rest
                   /\ (EvAccountTaskOverload ∉ rest)
                   /\ (EvEnqueue c ∈ rest))
  /\ (~ overload -> EvAccountTaskOverload ∉ evs)
  /\ (exists before, evs = before ++ [EvEnqueue c]
                     /\ forall c', EvEnqueue c' ∉ before)
  /\ task_queue_ (proc w') = task_queue_ s ++ [c].
Proof. exact (Schedule_calls_shape c w). Qed.

Lemma Schedule_overload_and_enqueue_witness :
  (max_task_queue_wait_length_ (proc Examples.world_full) <> 0
   /\ max_task_queue_wait_length_ (proc Examples.world_full)
      <= task_queue_size_ (proc Examples.world_full)
   /\ is_critical (contexts Examples.world_full 5%nat) = false)
  /\ exists rest,
      calls (Schedule 5%nat) Examples.world_full
      = calls (HandleOverload 5%nat) Examples.world_full ++ rest
      /\ (EvAccountTaskOverload ∉ rest)
      /\ (EvEnqueue 5%nat ∈ rest).
Proof.
  assert (max_task_queue_wait_length_ (proc Examples.world_full) <> 0
          /\ max_task_queue_wait_length_ (proc Examples.world_full)
             <= task_queue_size_ (proc Examples.world_full)
          /\ is_critical (contexts Examples.world_full 5%nat) = false)
    as Hover by (cbn; repeat split; lia).
  split; [exact Hover |].
  destruct (Schedule_overload_and_enqueue 5%nat Examples.world_full)
    as (_ & H & _).
  exact (H Hover).
Defined.

(** C4.  [Schedule] on a processor that is shutting down calls
    [RequestCancel] with [kShutdown] on the context, once, before the
    enqueue, and still enqueues the context; on a processor that is not
    shutting down it requests no cancellation with that reason. *)
Theorem Schedule_shutdown_cancel (c : handle) (w : World) :
  let w' := snd (Schedule c w) in
  let evs := calls (Schedule c) w in
  (is_shutting_down_ (proc w) = true ->
     exists before after,
       evs = before ++ EvRequestCancel c kShutdown :: after ++ [EvEnqueue c]
       /\ (forall c', EvEnqueue c' ∉ before ++ after)
       /\ (forall c', EvRequestCancel c' kShutdown ∉ before ++ after))
  /\ (is_shutting_down_ (proc w) = false ->
      forall c', EvRequestCancel c' kShutdown ∉ evs)
  /\ task_queue_ (proc w') = task_queue_ (proc w) ++ [c]
  /\ last evs = Some (EvEnqueue c).
Proof.
  cbv zeta. rewrite Schedule_calls, Schedule_world. cbv zeta.
  cbn [proc task_queue_].
  set (over := negb (max_task_queue_wait_length_ (proc w) =? 0)
               && negb (is_critical (contexts w c))
               && (max_task_queue_wait_length_ (proc w)
                   <=? task_queue_size_ (proc w))).
  set (stamp := task_count w mod kTaskTimestampFrequency =? 0).
  repeat split.
  - intros ->.
    exists (if over then calls (HandleOverload c) w else []),
           ((if stamp then [EvSteadyClockNow] else [])
            ++ [EvIntrusivePtrAddRef c]).
    split; [cbn; rewrite <- !app_assoc; reflexivity |].
    split; intros c'; rewrite elem_of_app; intros [H | H]; revert H;
      try (destruct over;
           [apply HandleOverload_calls_no_enqueue
           || apply HandleOverload_calls_no_shutdown | not_among]);
      destruct stamp; not_among.
  - intros -> c'. rewrite elem_of_app. intros [H | H]; revert H.
    + destruct over; [apply HandleOverload_calls_no_shutdown | not_among].
    + destruct stamp; not_among.
  - change [EvIntrusivePtrAddRef c; EvEnqueue c]
      with ([EvIntrusivePtrAddRef c] ++ [EvEnqueue c]).
    rewrite !app_assoc. apply last_snoc.
Qed.

Lemma Schedule_shutdown_cancel_witness :
  is_shutting_down_ (proc Examples.world_shutdown) = true
  /\ exists before after,
      calls (Schedule 5%nat) Examples.world_shutdown
      = before ++ EvRequestCancel 5%nat kShutdown
               :: after ++ [EvEnqueue 5%nat]
      /\ (forall c', EvEnqueue c' ∉ before ++ after)
      /\ (forall c', EvRequestCancel c' kShutdown ∉ before ++ after).
Proof.
  split; [reflexivity |].
  destruct (Schedule_shutdown_cancel 5%nat Examples.world_shutdown)
    as (H & _).
  exact (H eq_refl).
Defined.

(** C10.  The length check of [Schedule] compares the limit with
    [task_queue_size_] as it is on entry, before the context being scheduled
    is counted: the handler runs exactly when the limit is nonzero, the
    context is not critical and the size on entry has reached the limit, so
    a context that would itself be the one to reach the limit does not
    trigger it.  The size is incremented, after the check, whether or not
    the handler ran. *)
Theorem Schedule_length_check_precedes_increment (c : handle) (w : World) :
  let size := task_queue_size_ (proc w) in
  let max_length := max_task_queue_wait_length_ (proc w) in
  let w' := snd (Schedule c w) in
  let evs := calls (Schedule c) w in
  (EvAccountTaskOverload ∈ evs <->
     max_length <> 0 /\ max_length <= size
     /\ is_critical (contexts w c) = false)
  /\ (size + 1 = max_length -> EvAccountTaskOverload ∉ evs)
  /\ (EvAccountTaskOverload ∈ evs ->
      exists rest, evs = calls (HandleOverload c) w ++ rest)
  /\ task_queue_size_ (proc w') = size_t_wrap (size + 1).
Proof.
  cbv zeta.
  destruct (Schedule_calls_shape c w) as (_ & Hover & Hnot & _ & _).
  cbv zeta in Hover, Hnot.
  assert (EvAccountTaskOverload ∈ calls (Schedule c) w <->
          max_task_queue_wait_length_ (proc w) <> 0
          /\ max_task_queue_wait_length_ (proc w)
             <= task_queue_size_ (proc w)
          /\ is_critical (contexts w c) = false) as Hiff.
  { split.
    - intros Hin.
      destruct (decide (max_task_queue_wait_length_ (proc w) <> 0
                        /\ max_task_queue_wait_length_ (proc w)
                           <= task_queue_size_ (proc w)
                        /\ is_critical (contexts w c) = false))
        as [Ho | Hn]; [exact Ho | destruct (Hnot Hn Hin)].
    - intros Ho. destruct (Hover Ho) as (rest & -> & _).
      apply elem_of_app. left. apply HandleOverload_calls_overload. }
  split; [exact Hiff |].
  split; [intros E Hin; apply Hiff in Hin; lia |].
  split.
  - intros Hin. apply Hiff in Hin. destruct (Hover Hin) as (rest & -> & _).
    eauto.
  - rewrite Schedule_world. reflexivity.
Qed.

Lemma Schedule_length_check_precedes_increment_witness :
  task_queue_size_ (proc Examples.world_almost_full) + 1
  = max_task_queue_wait_length_ (proc Examples.world_almost_full)
  /\ (EvAccountTaskOverload
      ∉ calls (Schedule 5%nat) Examples.world_almost_full)
  /\ task_queue_size_ (proc (snd (Schedule 5%nat Examples.world_almost_full)))
     = max_task_queue_wait_length_ (proc Examples.world_almost_full).
Proof.
  split; [reflexivity |].
  destruct (Schedule_length_check_precedes_increment
              5%nat Examples.world_almost_full) as (_ & H & _ & Hsize).
  split; [exact (H eq_refl) |].
  rewrite Hsize. reflexivity.
Defined.

(** *** Sampling of the queue-wait time point *)

Lemma ScheduleAll_cons (c : handle) (cs : list handle) (w : World) :
  snd (ScheduleAll (c :: cs) w) = snd (ScheduleAll cs (snd (Schedule c w))).
Proof.
  cbn [ScheduleAll]. unfold mbind, M_bind.
  destruct (Schedule c w). reflexivity.
Qed.

Lemma ScheduleAll_app (cs1 cs2 : list handle) (w : World) :
  snd (ScheduleAll (cs1 ++ cs2) w)
  = snd (ScheduleAll cs2 (snd (ScheduleAll cs1 w))).
Proof.
  revert w. induction cs1 as [| c cs1 IH]; intros w; [reflexivity |].
  rewrite <- app_comm_cons, !ScheduleAll_cons. apply IH.
Qed.

Lemma Schedule_trace (c : handle) (w : World) :
  trace (snd (Schedule c w)) = trace w ++ calls (Schedule c) w.
Proof. apply (Schedule_calls_shape c w). Qed.

Lemma ScheduleAll_trace (cs : list handle) (w : World) :
  trace (snd (ScheduleAll cs w)) = trace w ++ calls (ScheduleAll cs) w.
Proof.
  assert (forall w, exists evs,
             trace (snd (ScheduleAll cs w)) = trace w ++ evs) as H.
  { induction cs as [| c cs IH]; intros w0.
    - exists []. cbn. rewrite app_nil_r. reflexivity.
    - rewrite ScheduleAll_cons. destruct (IH (snd (Schedule c w0))) as [evs E].
      rewrite E, Schedule_trace, <- app_assoc. eauto. }
  destruct (H w) as [evs E]. rewrite (calls_app _ _ _ E). exact E.
Qed.

Lemma ScheduleAll_calls_cons (c : handle) (cs : list handle) (w : World) :
  calls (ScheduleAll (c :: cs)) w
  = calls (Schedule c) w ++ calls (ScheduleAll cs) (snd (Schedule c w)).
Proof.
  apply calls_app.
  rewrite ScheduleAll_cons, ScheduleAll_trace, Schedule_trace, <- app_assoc.
  reflexivity.
Qed.

Lemma size_t_wrap_mod_frequency (z : Z) :
  size_t_wrap z mod kTaskTimestampFrequency = z mod kTaskTimestampFrequency.
Proof.
  unfold size_t_wrap, size_t_modulus, kTaskTimestampFrequency.
  apply Z.mod_mod_divide. exists (2 ^ 60). reflexivity.
Qed.

Lemma Schedule_task_count (c : handle) (w : World) :
  task_count (snd (Schedule c w)) = size_t_wrap (task_count w + 1).
Proof. rewrite Schedule_world. reflexivity. Qed.

Lemma ScheduleAll_task_count (cs : list handle) (w : World) :
  task_count (snd (ScheduleAll cs w)) mod kTaskTimestampFrequency
  = (task_count w + Z.of_nat (length cs)) mod kTaskTimestampFrequency.
Proof.
  revert w. induction cs as [| c cs IH]; intros w.
  - cbn. f_equal. lia.
  - rewrite ScheduleAll_cons, IH, Schedule_task_count.
    rewrite Zplus_mod, size_t_wrap_mod_frequency, <- Zplus_mod.
    f_equal. cbn [length]. lia.
Qed.

Lemma Schedule_clock (c : handle) (w : World) :
  occurrences EvSteadyClockNow (calls (Schedule c) w)
  = if task_count w mod kTaskTimestampFrequency =? 0 then 1%nat else 0%nat.
Proof.
  rewrite Schedule_calls, HandleOverload_calls. cbv zeta.
  unfold occurrences. rewrite !count_occ_app.
  destruct (negb (max_task_queue_wait_length_ (proc w) =? 0)
            && negb (is_critical (contexts w c))
            && (max_task_queue_wait_length_ (proc w)
                <=? task_queue_size_ (proc w))),
    (overload_action_ (proc w)), (is_critical (contexts w c)),
    (is_shutting_down_ (proc w)),
    (task_count w mod kTaskTimestampFrequency =? 0); reflexivity.
Qed.

Lemma Schedule_stored_timepoint (c : handle) (w : World) :
  queue_wait_timepoint (contexts (snd (Schedule c w)) c)
  = if task_count w mod kTaskTimestampFrequency =? 0
    then steady_clock_now w else time_point_zero.
Proof.
  rewrite Schedule_world. cbn. rewrite Nat.eqb_refl. reflexivity.
Qed.

Lemma multiples_from_mod (count : Z) (n : nat) :
  multiples_from count n
  = multiples_from (count mod kTaskTimestampFrequency) n.
Proof.
  revert count. induction n as [| n IH]; intros count; [reflexivity |].
  cbn [multiples_from].
  rewrite Zmod_mod. f_equal.
  rewrite IH, (IH (count mod kTaskTimestampFrequency + 1)).
  f_equal. rewrite Zplus_mod_idemp_l. reflexivity.
Qed.

Lemma multiples_from_window (count : Z) :
  multiples_from count (Z.to_nat kTaskTimestampFrequency) = 1%nat.
Proof.
  rewrite multiples_from_mod.
  assert (0 <= count mod kTaskTimestampFrequency < 16) as Hr
      by (apply Z.mod_pos_bound; reflexivity).
  set (r := count mod kTaskTimestampFrequency) in *.
  assert (r = 0 \/ r = 1 \/ r = 2 \/ r = 3 \/ r = 4 \/ r = 5 \/ r = 6
          \/ r = 7 \/ r = 8 \/ r = 9 \/ r = 10 \/ r = 11 \/ r = 12
          \/ r = 13 \/ r = 14 \/ r = 15) as Hcases by lia.
  repeat (destruct Hcases as [-> | Hcases]; [reflexivity |]).
  subst r. rewrite Hcases. reflexivity.
Qed.

(** The clock reads of the calls of a run: one for each call that finds
    the thread's counter at a multiple of the frequency. *)
Lemma ScheduleAll_clock (cs : list handle) (w : World) :
  occurrences EvSteadyClockNow (calls (ScheduleAll cs) w)
  = multiples_from (task_count w) (length cs).
Proof.
  revert w. induction cs as [| c cs IH]; intros w.
  - unfold calls. cbn. rewrite drop_all. reflexivity.
  - rewrite ScheduleAll_calls_cons. unfold occurrences in *.
    rewrite count_occ_app.
    fold (occurrences EvSteadyClockNow (calls (Schedule c) w)).
    rewrite Schedule_clock, IH, Schedule_task_count.
    cbn [length multiples_from]. f_equal.
    rewrite multiples_from_mod, size_t_wrap_mod_frequency,
      <- multiples_from_mod.
    reflexivity.
Qed.

Lemma stamp_index (count z : Z) :
  0 <= z < 16 -> (count + z) mod 16 = 0 <-> z = (- count) mod 16.
Proof. intros Hz. Z.to_euclidean_division_equations. lia. Qed.

(** C6.  In a run of [Schedule] calls by one thread, the call number [j]
    reads the clock, once, and stores the reading as the context's time
    point when the thread-local counter, which each call advances by one, is
    a multiple of 16 at that call; otherwise it reads no clock and stores
    the zero sentinel.  Among any 16 calls in a row exactly one is of the
    first kind. *)
Theorem Schedule_stamps_one_in_sixteen (cs : list handle) (w : World) :
  let stamps (j : nat) :=
    (task_count w + Z.of_nat j) mod kTaskTimestampFrequency = 0 in
  (forall (j : nat) (c : handle),
      cs !! j = Some c ->
      let wj := snd (ScheduleAll (take j cs) w) in
      let wj' := snd (Schedule c wj) in
      let reads := occurrences EvSteadyClockNow (calls (Schedule c) wj) in
      task_count wj' = size_t_wrap (task_count wj + 1)
      /\ (stamps j ->
          queue_wait_timepoint (contexts wj' c) = steady_clock_now wj
          /\ reads = 1%nat)
      /\ (~ stamps j ->
          queue_wait_timepoint (contexts wj' c) = time_point_zero
          /\ reads = 0%nat))
  /\ (length cs = 16%nat ->
      (exists i : nat,
          (i < 16)%nat /\ forall j : nat, (j < 16)%nat -> stamps j <-> j = i)
      /\ occurrences EvSteadyClockNow (calls (ScheduleAll cs) w) = 1%nat).
Proof.
  cbv zeta. split.
  - intros j c Hj.
    pose proof (lookup_lt_Some _ _ _ Hj) as Hlt.
    split; [apply Schedule_task_count |].
    rewrite Schedule_stored_timepoint, Schedule_clock.
    rewrite ScheduleAll_task_count, length_take, Nat.min_l by lia.
    destruct (Z.eqb_spec
                ((task_count w + Z.of_nat j) mod kTaskTimestampFrequency) 0);
      split; intros; try contradiction; auto.
  - intros Hlen. split.
    + exists (Z.to_nat ((- task_count w) mod kTaskTimestampFrequency)).
      unfold kTaskTimestampFrequency.
      split; [| intros j Hj; split; [intros Hs | intros ->]].
      * pose proof (Z.mod_pos_bound (- task_count w) 16 eq_refl). lia.
      * pose proof (Z.mod_pos_bound (- task_count w) 16 eq_refl).
        apply stamp_index in Hs; [| lia]. lia.
      * pose proof (Z.mod_pos_bound (- task_count w) 16 eq_refl).
        apply stamp_index; lia.
    + rewrite ScheduleAll_clock, Hlen. apply (multiples_from_window _).
Qed.

Lemma Schedule_stamps_one_in_sixteen_witness :
  length (seq 0 16) = 16%nat
  /\ occurrences EvSteadyClockNow
       (calls (ScheduleAll (seq 0 16)) Examples.world0) = 1%nat.
Proof.
  split; [reflexivity |].
  destruct (Schedule_stamps_one_in_sixteen (seq 0 16) Examples.world0)
    as [_ H].
  destruct (H eq_refl) as [_ Hone]. exact Hone.
Defined.

(** *** The polling loop of the worker *)

Lemma DequeueTask_running (rest : list DequeueOutcome) (w : World) :
  DequeueTask (TimedOut true :: rest) w
  = DequeueTask rest (snd (emit EvAccountTaskSwitchSlow w)).
Proof. reflexivity. Qed.

Lemma DequeueTask_trace (script : list DequeueOutcome) (w : World) :
  trace (snd (DequeueTask script w))
  = trace w
    ++ replicate (running_timeouts (attempts script)) EvAccountTaskSwitchSlow.
Proof.
  revert w. induction script as [| [c | []] rest IH]; intros w.
  - cbn. rewrite app_nil_r. reflexivity.
  - cbn. rewrite app_nil_r. reflexivity.
  - rewrite DequeueTask_running, IH. cbn. rewrite <- app_assoc. reflexivity.
  - cbn. rewrite app_nil_r. reflexivity.
Qed.

Lemma DequeueTask_null (script : list DequeueOutcome) (w : World) :
  fst (DequeueTask script w) = Some None
  <-> exists k rest,
      script = replicate k (TimedOut true) ++ TimedOut false :: rest.
Proof.
  revert w. induction script as [| [c | []] rest IH]; intros w.
  - split; [discriminate |].
    intros (k & rest & E). destruct k; discriminate.
  - split; [discriminate |].
    intros (k & rest' & E). destruct k; discriminate.
  - rewrite DequeueTask_running, IH. split.
    + intros (k & rest' & ->). exists (S k), rest'. reflexivity.
    + intros (k & rest' & E). destruct k as [| k]; [discriminate |].
      injection E as ->. eauto.
  - split; [| reflexivity]. intros _. exists O, rest. reflexivity.
Qed.

Lemma DequeueTask_item (script : list DequeueOutcome) (w : World)
      (c : handle) :
  fst (DequeueTask script w) = Some (Some c)
  <-> exists k rest,
      script = replicate k (TimedOut true) ++ Produced c :: rest.
Proof.
  revert w. induction script as [| [c' | []] rest IH]; intros w.
  - split; [discriminate |].
    intros (k & rest & E). destruct k; discriminate.
  - split.
    + intros [= ->]. exists O, rest. reflexivity.
    + intros (k & rest' & E). destruct k; [| discriminate].
      injection E as -> _. reflexivity.
  - rewrite DequeueTask_running, IH. split.
    + intros (k & rest' & ->). exists (S k), rest'. reflexivity.
    + intros (k & rest' & E). destruct k as [| k]; [discriminate |].
      injection E as ->. eauto.
  - split; [discriminate |].
    intros (k & rest' & E). destruct k; discriminate.
Qed.

Lemma timeouts_attempts (script : list DequeueOutcome) (w : World) :
  timeouts (attempts script)
  = (running_timeouts (attempts script)
     + match fst (DequeueTask script w) with
       | Some None => 1
       | _ => 0
       end)%nat.
Proof.
  revert w. induction script as [| [c | []] rest IH]; intros w;
    try reflexivity.
  rewrite DequeueTask_running.
  specialize (IH (snd (emit EvAccountTaskSwitchSlow w))).
  unfold timeouts, running_timeouts in *. cbn in *. rewrite IH. reflexivity.
Qed.

Lemma occurrences_replicate (e : Event) (n : nat) :
  occurrences e (replicate n e) = n.
Proof.
  unfold occurrences. induction n as [| n IH]; [reflexivity |].
  cbn. destruct (Event_eq_dec e e); [f_equal; exact IH | contradiction].
Qed.

(** C5, as the code has it.  In a run of the polling loop each timed-out
    attempt after which [is_running_] is read as true accounts one slow
    switch, and nothing else is called; a timed-out attempt after which
    [is_running_] is read as false accounts nothing and ends the loop with
    the null pointer.  So the timed-out attempts of a run exceed the slow
    switches accounted by one when the run ends with the null pointer, and
    equal them otherwise.  The loop ends with the null pointer exactly on
    such an attempt, and with a context exactly when one is dequeued. *)
Theorem DequeueTask_accounts_running_timeouts
        (script : list DequeueOutcome) (w : World) :
  let result := fst (DequeueTask script w) in
  let evs := calls (DequeueTask script) w in
  trace (snd (DequeueTask script w)) = trace w ++ evs
  /\ evs = replicate (running_timeouts (attempts script))
                     EvAccountTaskSwitchSlow
  /\ occurrences EvAccountTaskSwitchSlow evs
     = running_timeouts (attempts script)
  /\ timeouts (attempts script)
     = (running_timeouts (attempts script)
        + match result with Some None => 1 | _ => 0 end)%nat
  /\ (result = Some None <->
      exists k rest,
        script = replicate k (TimedOut true) ++ TimedOut false :: rest)
  /\ (forall c, result = Some (Some c) <->
      exists k rest,
        script = replicate k (TimedOut true) ++ Produced c :: rest).
Proof.
  cbv zeta.
  rewrite (calls_app _ _ _ (DequeueTask_trace script w)).
  split; [apply DequeueTask_trace |].
  split; [reflexivity |].
  split; [apply occurrences_replicate |].
  split; [apply timeouts_attempts |].
  split; [apply DequeueTask_null |].
  intros c. apply DequeueTask_item.
Qed.

(** C5, as stated, fails: a single attempt that times out with
    [is_running_] false is a timed-out attempt for which no slow switch is
    accounted. *)
Lemma DequeueTask_last_timeout_uncounted :
  timeouts (attempts [TimedOut false]) = 1%nat
  /\ occurrences EvAccountTaskSwitchSlow
       (calls (DequeueTask [TimedOut false]) Examples.world0) = 0%nat
  /\ ~ (forall script w,
          occurrences EvAccountTaskSwitchSlow (calls (DequeueTask script) w)
          = timeouts (attempts script)).
Proof.
  split; [reflexivity |]. split; [reflexivity |].
  intros H. specialize (H [TimedOut false] Examples.world0). discriminate H.
Qed.

End TaskProcessorFacts.

(** * Properties of the wait list *)

Module WaitListFacts.
Import WaitList.

Lemma waiters_cons_Some (c : handle) (wl : Slots) :
  waiters (Some c :: wl) = c :: waiters wl.
Proof. reflexivity. Qed.

Lemma waiters_cons_None (wl : Slots) : waiters (None :: wl) = waiters wl.
Proof. reflexivity. Qed.

Lemma waiters_app (wl1 wl2 : Slots) :
  waiters (wl1 ++ wl2) = waiters wl1 ++ waiters wl2.
Proof. apply omap_app. Qed.

Lemma waiters_replicate_None (n : nat) : waiters (replicate n None) = [].
Proof. induction n as [| n IH]; [reflexivity | exact IH]. Qed.

Lemma elem_of_waiters (c : handle) (wl : Slots) :
  c ∈ waiters wl <-> Some c ∈ wl.
Proof.
  unfold waiters. rewrite list_elem_of_omap. split.
  - intros (slot & Hin & E). cbn in E. subst slot. exact Hin.
  - intros Hin. exists (Some c). auto.
Qed.

(** The loop of [WakeupOne] drops the reset slots at the head and the first
    slot that holds a context, which it wakes. *)
Lemma WakeupOne_loop_shape (wl : Slots) :
  (exists n c, wl = replicate n None ++ Some c :: fst (WakeupOne_loop wl)
               /\ snd (WakeupOne_loop wl) = [EvWakeup c kWaitList])
  \/ (wl = replicate (length wl) None
      /\ WakeupOne_loop wl = ([], [])).
Proof.
  induction wl as [| [c |] wl IH].
  - right. auto.
  - left. exists O, c. auto.
  - destruct IH as [(n & c & E & Hev) | (E & Hloop)].
    + left. exists (S n), c. cbn. rewrite <- E. auto.
    + right. cbn. rewrite <- E. auto.
Qed.

Lemma WakeupOne_loop_waiters (wl : Slots) :
  snd (WakeupOne_loop wl) = wakeups (take 1 (waiters wl))
  /\ waiters (fst (WakeupOne_loop wl)) = drop 1 (waiters wl).
Proof.
  induction wl as [| [c |] wl IH]; cbn; auto.
Qed.

Lemma WakeupOne_times_waiters (lock : Lock) (NDEBUG : bool) (k : nat)
      (wl : Slots) :
  assert_holds NDEBUG (owns_lock lock) = true ->
  exists wl', WakeupOne_times NDEBUG lock k wl
              = Some (wl', wakeups (take k (waiters wl)))
              /\ waiters wl' = drop k (waiters wl).
Proof.
  intros Hlock. revert wl. induction k as [| k IH]; intros wl.
  - exists wl. cbn. rewrite drop_0. auto.
  - cbn [WakeupOne_times]. unfold WakeupOne. rewrite Hlock.
    destruct (WakeupOne_loop wl) as [wl1 evs1] eqn:E1.
    destruct (WakeupOne_loop_waiters wl) as [Hev Hw].
    rewrite E1 in Hev, Hw. cbn [fst snd] in Hev, Hw.
    destruct (IH wl1) as (wl2 & E2 & Hw2). rewrite E2.
    exists wl2. split.
    + f_equal. f_equal. rewrite Hev, Hw. unfold wakeups.
      rewrite <- fmap_app. f_equal.
      destruct (waiters wl) as [| c cs]; cbn.
      * rewrite take_nil. reflexivity.
      * rewrite drop_0. reflexivity.
    + rewrite Hw2, Hw, drop_drop. f_equal.
Qed.

Lemma WakeupAll_loop_waiters (wl : Slots) :
  WakeupAll_loop wl = wakeups (waiters wl).
Proof.
  induction wl as [| [c |] wl IH]; cbn; [reflexivity | | exact IH].
  rewrite IH. reflexivity.
Qed.

Lemma occurrences_wakeups (c : handle) (wl : Slots) :
  occurrences (EvWakeup c kWaitList) (wakeups (waiters wl))
  = slots_holding c wl.
Proof.
  unfold slots_holding, occurrences.
  induction wl as [| [c' |] wl IH]; [reflexivity | |].
  - rewrite filter_cons, waiters_cons_Some. cbn [wakeups fmap list_fmap].
    cbn [count_occ].
    destruct (Event_eq_dec (EvWakeup c' kWaitList) (EvWakeup c kWaitList))
      as [E | E]; case_decide as E'.
    + cbn [length]. f_equal. exact IH.
    + exfalso. apply E'. congruence.
    + exfalso. apply E. congruence.
    + exact IH.
  - rewrite filter_cons, waiters_cons_None. case_decide; [discriminate |].
    exact IH.
Qed.

Lemma elem_of_wakeups (e : Event) (cs : list handle) :
  e ∈ wakeups cs <-> exists c, e = EvWakeup c kWaitList /\ c ∈ cs.
Proof. unfold wakeups. apply list_elem_of_fmap. Qed.

Lemma slots_holding_cons (c : handle) (slot : option handle) (wl : Slots) :
  slots_holding c (slot :: wl)
  = ((if decide (slot = Some c) then 1 else 0) + slots_holding c wl)%nat.
Proof.
  unfold slots_holding. rewrite filter_cons. case_decide; reflexivity.
Qed.

Lemma slots_holding_0 (c : handle) (wl : Slots) :
  slots_holding c wl = 0%nat <-> Some c ∉ wl.
Proof.
  induction wl as [| slot wl IH].
  - split; [intros _; apply not_elem_of_nil | reflexivity].
  - rewrite slots_holding_cons, not_elem_of_cons.
    case_decide as E; [subst slot |].
    + split; [discriminate | intros [H _]; congruence].
    + cbn. rewrite IH. split; [intros H; split; [congruence | exact H] |].
      intros [_ H]. exact H.
Qed.

Lemma slots_holding_NoDup (c : handle) (wl : Slots) :
  NoDup (waiters wl) -> Some c ∈ wl -> slots_holding c wl = 1%nat.
Proof.
  induction wl as [| [c' |] wl IH]; intros Hnd Hin.
  - apply elem_of_nil in Hin. contradiction.
  - rewrite waiters_cons_Some in Hnd. apply NoDup_cons in Hnd as [Hc' Hnd].
    rewrite slots_holding_cons. case_decide as E.
    + injection E as ->. f_equal. apply slots_holding_0.
      intros H. apply Hc', elem_of_waiters, H.
    + apply IH; [exact Hnd |].
      apply elem_of_cons in Hin as [Hin | Hin]; [congruence | exact Hin].
  - rewrite slots_holding_cons. case_decide; [discriminate |].
    apply IH; [exact Hnd |].
    apply elem_of_cons in Hin as [Hin | Hin]; [discriminate | exact Hin].
Qed.

(** C7.  With the lock held, [WakeupOne] takes slots off the head of the
    list up to and including the first one that holds a context, wakes that
    context with source [kWaitList] and makes no other call; the reset slots
    before it are dropped unwoken.  If no slot holds a context it empties the
    list and wakes nobody.  So [k] calls in a row wake the first [k]
    contexts held, in list order, which is the order of [Append], since
    [Append] puts a context at the tail. *)
Theorem WakeupOne_wakes_first_waiter (NDEBUG : bool) (lock : Lock)
        (wl : Slots) :
  assert_holds NDEBUG (owns_lock lock) = true ->
  (exists wl' evs,
      WakeupOne NDEBUG lock wl = Some (wl', evs)
      /\ ((exists n c, wl = replicate n None ++ Some c :: wl'
                       /\ evs = [EvWakeup c kWaitList])
          \/ (wl = replicate (length wl) None /\ wl' = [] /\ evs = []))
      /\ evs = wakeups (take 1 (waiters wl))
      /\ waiters wl' = drop 1 (waiters wl))
  /\ (forall k, exists wl',
         WakeupOne_times NDEBUG lock k wl
         = Some (wl', wakeups (take k (waiters wl)))
         /\ waiters wl' = drop k (waiters wl))
  /\ (forall c, Append NDEBUG lock (Some c) wl = Some (wl ++ [Some c], [])
                /\ waiters (wl ++ [Some c]) = waiters wl ++ [c]).
Proof.
  intros Hlock. split; [| split].
  - unfold WakeupOne. rewrite Hlock.
    destruct (WakeupOne_loop_waiters wl) as [Hev Hw].
    pose proof (WakeupOne_loop_shape wl) as Hshape.
    destruct (WakeupOne_loop wl) as [wl' evs]. cbn [fst snd] in *.
    exists wl', evs. split; [reflexivity |]. split; [| auto].
    destruct Hshape as [(n & c & E & E') | (E & [= -> ->])]; eauto 10.
  - intros k. apply WakeupOne_times_waiters, Hlock.
  - intros c. unfold Append. rewrite Hlock. split; [reflexivity |].
    apply waiters_app.
Qed.

Lemma WakeupOne_wakes_first_waiter_witness :
  assert_holds false (owns_lock (mkLock true)) = true
  /\ exists wl',
      WakeupOne_times false (mkLock true) 2
        [None; Some 4; None; Some 5; Some 6]%nat
      = Some (wl', [EvWakeup 4%nat kWaitList; EvWakeup 5%nat kWaitList])
      /\ waiters wl' = [6%nat].
Proof.
  split; [reflexivity |].
  destruct (WakeupOne_wakes_first_waiter false (mkLock true)
              [None; Some 4; None; Some 5; Some 6]%nat eq_refl)
    as (_ & Htimes & _).
  exact (Htimes 2%nat).
Defined.

(** C8.  With the lock held, [WakeupAll] wakes the contexts held, in list
    order, each with source [kWaitList] and once for each slot that holds
    it, hence exactly once when no context is held twice; it makes no call
    for a reset slot or for a context not held, and leaves the list
    empty. *)
Theorem WakeupAll_wakes_every_waiter (NDEBUG : bool) (lock : Lock)
        (wl : Slots) :
  assert_holds NDEBUG (owns_lock lock) = true ->
  WakeupAll NDEBUG lock wl = Some ([], wakeups (waiters wl))
  /\ (forall c, occurrences (EvWakeup c kWaitList) (wakeups (waiters wl))
                = slots_holding c wl)
  /\ (forall e, e ∈ wakeups (waiters wl) ->
                exists c, e = EvWakeup c kWaitList /\ Some c ∈ wl)
  /\ (NoDup (waiters wl) ->
      forall c, Some c ∈ wl ->
                occurrences (EvWakeup c kWaitList) (wakeups (waiters wl))
                = 1%nat).
Proof.
  intros Hlock. unfold WakeupAll. rewrite Hlock, WakeupAll_loop_waiters.
  split; [reflexivity |].
  split; [intros c; apply occurrences_wakeups |]. split.
  - intros e He. apply elem_of_wakeups in He as (c & -> & Hc).
    exists c. split; [reflexivity |]. apply elem_of_waiters, Hc.
  - intros Hnd c Hc. rewrite occurrences_wakeups.
    apply slots_holding_NoDup; assumption.
Qed.

Lemma WakeupAll_wakes_every_waiter_witness :
  assert_holds false (owns_lock (mkLock true)) = true
  /\ WakeupAll false (mkLock true) [Some 1; None; Some 2; None; Some 3]%nat
     = Some ([], [EvWakeup 1%nat kWaitList; EvWakeup 2%nat kWaitList;
                  EvWakeup 3%nat kWaitList]).
Proof.
  split; [reflexivity |].
  apply (WakeupAll_wakes_every_waiter false (mkLock true)
           [Some 1; None; Some 2; None; Some 3]%nat eq_refl).
Defined.

(** *** [Remove] *)

Lemma find_None (wl : Slots) (x : option handle) :
  find wl x = None <-> x ∉ wl.
Proof.
  induction wl as [| slot wl IH]; cbn [find].
  - split; [intros _; apply not_elem_of_nil | reflexivity].
  - rewrite not_elem_of_cons. case_decide as E.
    + split; [discriminate | intros [H _]; congruence].
    + destruct (find wl x).
      * split; [discriminate |]. intros [_ H]. apply IH in H. discriminate.
      * split; [| reflexivity]. intros _. split; [congruence | apply IH].
        reflexivity.
Qed.

Lemma find_Some (wl : Slots) (x : option handle) (i : nat) :
  find wl x = Some i ->
  wl !! i = Some x /\ forall j, j < i -> wl !! j <> Some x.
Proof.
  revert i. induction wl as [| slot wl IH]; intros i; cbn [find];
    [discriminate |].
  case_decide as E.
  - intros [= <-]. split; [cbn; congruence | intros j Hj; lia].
  - destruct (find wl x) as [i' |]; [| discriminate].
    intros [= <-]. destruct (IH i' eq_refl) as [Hi Hlt].
    split; [exact Hi |]. intros [| j] Hj; cbn; [congruence |].
    apply Hlt. lia.
Qed.

Lemma Remove_cons_hit (NDEBUG : bool) (x : option handle) (wl : Slots) :
  Remove NDEBUG x (x :: wl)
  = if assert_holds NDEBUG (bool_decide (find wl x = None))
    then Some (None :: wl, []) else None.
Proof.
  unfold Remove. cbn [find]. case_decide; [| congruence]. reflexivity.
Qed.

Lemma Remove_cons_miss (NDEBUG : bool) (x slot : option handle)
      (wl : Slots) :
  slot <> x ->
  Remove NDEBUG x (slot :: wl)
  = match Remove NDEBUG x wl with
    | Some (wl', evs) => Some (slot :: wl', evs)
    | None => None
    end.
Proof.
  intros Hne. unfold Remove. cbn [find]. case_decide; [congruence |].
  destruct (find wl x) as [i |]; [| reflexivity].
  cbn. destruct (assert_holds _ _); reflexivity.
Qed.

Lemma Remove_result (NDEBUG : bool) (x : option handle) (wl wl' : Slots)
      (evs : list Event) :
  Remove NDEBUG x wl = Some (wl', evs) ->
  evs = []
  /\ ((find wl x = None /\ wl' = wl)
      \/ exists i, find wl x = Some i /\ wl' = <[i := None]> wl).
Proof.
  unfold Remove. destruct (find wl x) as [i |].
  - destruct (assert_holds _ _); [| discriminate].
    intros [= <- <-]. eauto.
  - intros [= <- <-]. auto.
Qed.

Lemma Remove_at_most_once (NDEBUG : bool) (c : handle) (wl : Slots) :
  slots_holding c wl <= 1 ->
  exists wl', Remove NDEBUG (Some c) wl = Some (wl', [])
              /\ Some c ∉ wl'.
Proof.
  induction wl as [| slot wl IH]; intros Hcount.
  - exists []. split; [reflexivity | apply not_elem_of_nil].
  - rewrite slots_holding_cons in Hcount.
    destruct (decide (slot = Some c)) as [-> | Hne].
    + assert (Some c ∉ wl) as Hnot by (apply slots_holding_0; lia).
      rewrite Remove_cons_hit.
      rewrite bool_decide_eq_true_2 by (apply find_None, Hnot).
      unfold assert_holds. rewrite orb_true_r.
      exists (None :: wl). split; [reflexivity |].
      apply not_elem_of_cons. split; [discriminate | exact Hnot].
    + destruct IH as (wl' & E & Hnot); [lia |].
      rewrite Remove_cons_miss, E by exact Hne.
      exists (slot :: wl'). split; [reflexivity |].
      apply not_elem_of_cons. split; [congruence | exact Hnot].
Qed.

Lemma Remove_asserts (c : handle) (wl : Slots) :
  is_Some (Remove false (Some c) wl) -> slots_holding c wl <= 1.
Proof.
  induction wl as [| slot wl IH]; intros Hsome; [cbn; lia |].
  rewrite slots_holding_cons.
  destruct (decide (slot = Some c)) as [-> | Hne].
  - rewrite Remove_cons_hit in Hsome. unfold assert_holds in Hsome.
    cbn [orb] in Hsome. case_bool_decide as E.
    + apply find_None, slots_holding_0 in E. lia.
    + destruct Hsome as [? [=]].
  - rewrite Remove_cons_miss in Hsome by exact Hne.
    destruct (Remove false (Some c) wl) as [[wl' evs] |];
      [| destruct Hsome as [? [=]]].
    assert (slots_holding c wl <= 1) by (apply IH; eauto). lia.
Qed.

Lemma Remove_ndebug (x : option handle) (wl : Slots) :
  is_Some (Remove true x wl).
Proof. unfold Remove. destruct (find wl x); cbn; eauto. Qed.

Lemma slots_holding_NoDup_le (c : handle) (wl : Slots) :
  NoDup (waiters wl) -> slots_holding c wl <= 1.
Proof.
  intros Hnd. destruct (decide (Some c ∈ wl)) as [Hin | Hnot].
  - rewrite (slots_holding_NoDup c wl Hnd Hin). lia.
  - apply slots_holding_0 in Hnot. lia.
Qed.

(** C9.  Whenever [Remove] of a context returns, it has woken nobody and
    the list has the length it had; either no slot held the context and
    the list is as it was, or the first slot that held it is now reset and
    every other slot, before and after, is as it was, in its place.  When
    the context was held in at most one slot, as it is when no context is
    held twice, [Remove] returns and no slot holds the context afterwards.
    The assertion at its end stops it exactly when assertions are compiled
    in and the context was held in more than one slot. *)
Theorem Remove_resets_first_slot_in_place (NDEBUG : bool) (c : handle)
        (wl : Slots) :
  (forall wl' evs,
      Remove NDEBUG (Some c) wl = Some (wl', evs) ->
      evs = []
      /\ length wl' = length wl
      /\ (((Some c ∉ wl) /\ wl' = wl)
          \/ exists i,
              wl !! i = Some (Some c)
              /\ (forall j, j < i -> wl !! j <> Some (Some c))
              /\ wl' !! i = Some None
              /\ forall j, j <> i -> wl' !! j = wl !! j))
  /\ (slots_holding c wl <= 1 ->
      exists wl', Remove NDEBUG (Some c) wl = Some (wl', [])
                  /\ Some c ∉ wl')
  /\ (NoDup (waiters wl) -> slots_holding c wl <= 1)
  /\ (is_Some (Remove NDEBUG (Some c) wl)
      <-> NDEBUG = true \/ slots_holding c wl <= 1).
Proof.
  split; [| split; [| split]].
  - intros wl' evs E.
    apply Remove_result in E as (-> & [[Hfind ->] | (i & Hfind & ->)]).
    + split; [reflexivity |]. split; [reflexivity |].
      left. split; [apply find_None, Hfind | reflexivity].
    + apply find_Some in Hfind as [Hi Hbefore].
      split; [reflexivity |]. split; [apply length_insert |].
      right. exists i. split; [exact Hi |]. split; [exact Hbefore |].
      split.
      * apply list_lookup_insert_eq. apply lookup_lt_Some in Hi. exact Hi.
      * intros j Hj. apply list_lookup_insert_ne. congruence.
  - apply Remove_at_most_once.
  - apply slots_holding_NoDup_le.
  - split.
    + intros Hsome. destruct NDEBUG; [left; reflexivity | right].
      apply Remove_asserts, Hsome.
    + intros [-> | Hcount]; [apply Remove_ndebug |].
      destruct (Remove_at_most_once NDEBUG c wl Hcount) as (wl' & E & _).
      rewrite E. eauto.
Qed.

Lemma Remove_resets_first_slot_in_place_witness :
  slots_holding 4 [Some 3; Some 4; Some 5]%nat <= 1
  /\ exists wl',
      Remove false (Some 4%nat) [Some 3; Some 4; Some 5]%nat = Some (wl', [])
      /\ Some 4%nat ∉ wl'.
Proof.
  split; [vm_compute; lia |].
  apply (Remove_resets_first_slot_in_place false 4%nat
           [Some 3; Some 4; Some 5]%nat).
  vm_compute. lia.
Defined.

End WaitListFacts.

(** * How the wait-list operations compose *)

Module WaitListComposition.
Import WaitList WaitListFacts.

Lemma Remove_absent (NDEBUG : bool) (x : option handle) (wl : Slots) :
  x ∉ wl -> Remove NDEBUG x wl = Some (wl, []).
Proof.
  intros Hnot. unfold Remove.
  rewrite (proj2 (find_None wl x) Hnot). reflexivity.
Qed.

Lemma Remove_waiters_split (NDEBUG : bool) (c : handle)
      (wl wl' : Slots) (evs : list Event) :
  Remove NDEBUG (Some c) wl = Some (wl', evs) ->
  Some c ∈ wl ->
  exists before after,
    waiters wl = before ++ c :: after
    /\ (c ∉ before)
    /\ waiters wl' = before ++ after.
Proof.
  revert wl'. induction wl as [| slot wl IH]; intros wl' E Hin.
  - apply elem_of_nil in Hin. contradiction.
  - destruct (decide (slot = Some c)) as [-> | Hne].
    + rewrite Remove_cons_hit in E.
      destruct (assert_holds _ _); [| discriminate].
      injection E as <- <-.
      exists [], (waiters wl). split; [reflexivity |].
      split; [apply not_elem_of_nil | reflexivity].
    + rewrite Remove_cons_miss in E by exact Hne.
      destruct (Remove NDEBUG (Some c) wl) as [[wl1 evs1] |] eqn:E1;
        [| discriminate].
      injection E as <- <-.
      apply elem_of_cons in Hin as [Hin | Hin]; [congruence |].
      destruct (IH wl1 eq_refl Hin) as (before & after & Hw & Hb & Hw').
      destruct slot as [c' |].
      * exists (c' :: before), after.
        rewrite !waiters_cons_Some, Hw, Hw'.
        split; [reflexivity |]. split; [| reflexivity].
        apply not_elem_of_cons. split; [congruence | exact Hb].
      * exists before, after. rewrite !waiters_cons_None. auto.
Qed.

Lemma Remove_keeps_order (wl : Slots) (c : handle) (NDEBUG : bool)
      (wl' : Slots) (evs : list Event) :
  Remove NDEBUG (Some c) wl = Some (wl', evs) ->
  ((c ∉ waiters wl) /\ wl' = wl)
  \/ (exists before after,
         waiters wl = before ++ c :: after
         /\ (c ∉ before)
         /\ waiters wl' = before ++ after).
Proof.
  intros E. destruct (decide (Some c ∈ wl)) as [Hin | Hnot].
  - right. eapply Remove_waiters_split; eassumption.
  - left. rewrite elem_of_waiters. split; [exact Hnot |].
    rewrite (Remove_absent NDEBUG _ _ Hnot) in E. congruence.
Qed.

(** X1.  When [Remove] of a context returns, the contexts still waiting are
    the ones that waited before, in the same order, less the first
    occurrence of the context removed; if it was not waiting, they are the
    same. *)
Theorem Remove_keeps_order_of_others (NDEBUG : bool) (c : handle)
        (wl wl' : Slots) (evs : list Event) :
  Remove NDEBUG (Some c) wl = Some (wl', evs) ->
  ((c ∉ waiters wl) /\ wl' = wl)
  \/ (exists before after,
         waiters wl = before ++ c :: after
         /\ (c ∉ before)
         /\ waiters wl' = before ++ after).
Proof.
  exact (Remove_keeps_order wl c NDEBUG wl' evs).
Qed.

Lemma Remove_keeps_order_of_others_witness :
  Remove false (Some 2%nat) [Some 1; Some 2; None; Some 3]%nat
  = Some ([Some 1; None; None; Some 3]%nat, [])
  /\ (((2%nat ∉ waiters [Some 1; Some 2; None; Some 3]%nat)
       /\ [Some 1; None; None; Some 3]%nat
          = [Some 1; Some 2; None; Some 3]%nat)
      \/ exists before after,
         waiters [Some 1; Some 2; None; Some 3]%nat = before ++ 2%nat :: after
         /\ (2%nat ∉ before)
         /\ waiters [Some 1; None; None; Some 3]%nat = before ++ after).
Proof.
  split; [reflexivity |].
  apply (Remove_keeps_order_of_others false 2%nat
           [Some 1; Some 2; None; Some 3]%nat
           [Some 1; None; None; Some 3]%nat []).
  reflexivity.
Defined.

(** X2.  [Remove] of a context held in at most one slot can be repeated:
    the second call finds nothing, returns in either build and leaves the
    list as the first call left it. *)
Theorem Remove_twice (NDEBUG : bool) (c : handle) (wl : Slots) :
  slots_holding c wl <= 1 ->
  exists wl', Remove NDEBUG (Some c) wl = Some (wl', [])
              /\ Remove NDEBUG (Some c) wl' = Some (wl', [])
              /\ length wl' = length wl.
Proof.
  intros Hcount.
  destruct (Remove_at_most_once NDEBUG c wl Hcount) as (wl' & E & Hnot).
  exists wl'. split; [exact E |]. split; [apply Remove_absent, Hnot |].
  apply Remove_result in E as (_ & [[_ ->] | (i & _ & ->)]);
    [reflexivity | apply length_insert].
Qed.

Lemma Remove_twice_witness :
  slots_holding 2 [Some 1; Some 2; Some 3]%nat <= 1
  /\ exists wl',
      Remove false (Some 2%nat) [Some 1; Some 2; Some 3]%nat = Some (wl', [])
      /\ Remove false (Some 2%nat) wl' = Some (wl', [])
      /\ length wl' = 3.
Proof.
  split; [vm_compute; lia |].
  apply (Remove_twice false 2%nat [Some 1; Some 2; Some 3]%nat).
  vm_compute. lia.
Defined.

Lemma not_woken (c : handle) (src : WakeupSource) (cs : list handle) :
  c ∉ cs -> EvWakeup c src ∉ wakeups cs.
Proof.
  intros Hnot Hin. apply elem_of_wakeups in Hin as (c' & [= -> _] & Hc').
  contradiction.
Qed.

Lemma WakeupOne_times_wakes (NDEBUG : bool) (lock : Lock) (k : nat)
      (wl wl' : Slots) (evs : list Event) :
  WakeupOne_times NDEBUG lock k wl = Some (wl', evs) ->
  evs = wakeups (take k (waiters wl)).
Proof.
  destruct (assert_holds NDEBUG (owns_lock lock)) eqn:Hlock.
  - destruct (WakeupOne_times_waiters lock NDEBUG k wl Hlock)
      as (wl1 & E & _).
    rewrite E. intros [= _ <-]. reflexivity.
  - destruct k as [| k]; cbn [WakeupOne_times].
    + intros [= _ <-]. rewrite take_0. reflexivity.
    + unfold WakeupOne. rewrite Hlock. discriminate.
Qed.

(** X3.  A context removed from the list, where it was held in at most one
    slot, is not woken by anything that follows: neither [WakeupAll] nor
    any number of [WakeupOne] calls on the list [Remove] left calls its
    [Wakeup]. *)
Theorem removed_context_is_not_woken (NDEBUG : bool) (lock : Lock)
        (c : handle) (wl wl' : Slots) :
  slots_holding c wl <= 1 ->
  Remove NDEBUG (Some c) wl = Some (wl', []) ->
  (forall wl'' evs src,
      WakeupAll NDEBUG lock wl' = Some (wl'', evs) -> EvWakeup c src ∉ evs)
  /\ (forall k wl'' evs src,
         WakeupOne_times NDEBUG lock k wl' = Some (wl'', evs) ->
         EvWakeup c src ∉ evs).
Proof.
  intros Hcount E.
  destruct (Remove_at_most_once NDEBUG c wl Hcount) as (wl1 & E1 & Hnot).
  rewrite E in E1. injection E1 as <-.
  assert (c ∉ waiters wl') as Hw by (rewrite elem_of_waiters; exact Hnot).
  split.
  - intros wl'' evs src. unfold WakeupAll.
    destruct (assert_holds _ _); [| discriminate].
    intros [= _ <-]. rewrite WakeupAll_loop_waiters.
    apply not_woken, Hw.
  - intros k wl'' evs src Hk.
    rewrite (WakeupOne_times_wakes _ _ _ _ _ _ Hk).
    apply not_woken. intros Hin. apply Hw.
    apply elem_of_take in Hin as (i & Hi & _).
    eapply list_elem_of_lookup_2, Hi.
Qed.

Lemma removed_context_is_not_woken_witness :
  slots_holding 2 [Some 1; Some 2; Some 3]%nat <= 1
  /\ Remove false (Some 2%nat) [Some 1; Some 2; Some 3]%nat
     = Some ([Some 1; None; Some 3]%nat, [])
  /\ forall wl'' evs src,
      WakeupAll false (mkLock true) [Some 1; None; Some 3]%nat
      = Some (wl'', evs) ->
      EvWakeup 2%nat src ∉ evs.
Proof.
  assert (slots_holding 2 [Some 1; Some 2; Some 3]%nat <= 1) as Hcount
      by (vm_compute; lia).
  split; [exact Hcount |]. split; [reflexivity |].
  apply (removed_context_is_not_woken false (mkLock true) 2%nat
           [Some 1; Some 2; Some 3]%nat [Some 1; None; Some 3]%nat Hcount
           eq_refl).
Defined.

Lemma WakeupOne_loop_no_waiters (wl : Slots) :
  waiters wl = [] -> WakeupOne_loop wl = ([], []).
Proof.
  induction wl as [| [c |] wl IH]; intros Hw;
    [reflexivity | discriminate | exact (IH Hw)].
Qed.

Lemma WakeupOne_times_S (NDEBUG : bool) (lock : Lock) (k : nat)
      (wl : Slots) :
  WakeupOne_times NDEBUG lock (S k) wl
  = match WakeupOne NDEBUG lock wl with
    | None => None
    | Some (wl', woken) =>
        match WakeupOne_times NDEBUG lock k wl' with
        | None => None
        | Some (wl'', woken') => Some (wl'', woken ++ woken')
        end
    end.
Proof. reflexivity. Qed.

Lemma WakeupOne_times_drain (NDEBUG : bool) (lock : Lock) (n : nat) :
  assert_holds NDEBUG (owns_lock lock) = true ->
  forall wl,
    length (waiters wl) = n ->
    WakeupOne_times NDEBUG lock (S n) wl = Some ([], wakeups (waiters wl)).
Proof.
  intros Hlock. induction n as [| n IH]; intros wl Hn.
  - apply length_zero_iff_nil in Hn.
    rewrite WakeupOne_times_S. unfold WakeupOne.
    rewrite Hlock, (WakeupOne_loop_no_waiters wl Hn), Hn. reflexivity.
  - rewrite WakeupOne_times_S. unfold WakeupOne. rewrite Hlock.
    destruct (WakeupOne_loop_waiters wl) as [Hev Hw].
    destruct (WakeupOne_loop wl) as [wl1 evs1]. cbn [fst snd] in Hev, Hw.
    destruct (waiters wl) as [| c cs]; [discriminate |].
    cbn [take drop] in Hev, Hw. rewrite take_0 in Hev. rewrite drop_0 in Hw.
    assert (length (waiters wl1) = n) as Hn1
        by (rewrite Hw; cbn in Hn; lia).
    rewrite (IH wl1 Hn1), Hev, Hw. reflexivity.
Qed.

(** X4.  With the lock held, as many [WakeupOne] calls as contexts are
    held wake the same contexts in the same order as one [WakeupAll] and
    leave at most reset slots behind; one call more leaves the list empty,
    as [WakeupAll] does. *)
Theorem WakeupOne_repeated_is_WakeupAll (NDEBUG : bool) (lock : Lock)
        (wl : Slots) :
  assert_holds NDEBUG (owns_lock lock) = true ->
  let n := length (waiters wl) in
  (exists evs,
      WakeupAll NDEBUG lock wl = Some ([], evs)
      /\ WakeupOne_times NDEBUG lock (S n) wl = Some ([], evs)
      /\ exists wl', WakeupOne_times NDEBUG lock n wl = Some (wl', evs)
                     /\ waiters wl' = []).
Proof.
  intros Hlock n. exists (wakeups (waiters wl)).
  split; [| split].
  - unfold WakeupAll. rewrite Hlock, WakeupAll_loop_waiters. reflexivity.
  - apply WakeupOne_times_drain; [exact Hlock | reflexivity].
  - destruct (WakeupOne_times_waiters lock NDEBUG n wl Hlock)
      as (wl' & E & Hw).
    exists wl'. subst n. rewrite firstn_all in E. rewrite drop_all in Hw.
    auto.
Qed.

Lemma WakeupOne_repeated_is_WakeupAll_witness :
  assert_holds false (owns_lock (mkLock true)) = true
  /\ exists evs,
      WakeupAll false (mkLock true) [Some 1; None; Some 2; None]%nat
      = Some ([], evs)
      /\ WakeupOne_times false (mkLock true) 3
           [Some 1; None; Some 2; None]%nat = Some ([], evs)
      /\ exists wl',
          WakeupOne_times false (mkLock true) 2
            [Some 1; None; Some 2; None]%nat = Some (wl', evs)
          /\ waiters wl' = [].
Proof.
  split; [reflexivity |].
  apply (WakeupOne_repeated_is_WakeupAll false (mkLock true)
           [Some 1; None; Some 2; None]%nat eq_refl).
Defined.

(** X5.  A list in which no context is held twice stays so through every
    operation that returns: [WakeupOne], [WakeupAll], [Remove] of any
    context, and [Append] of a null pointer or of a context not held. *)
Theorem no_context_held_twice_is_kept (NDEBUG : bool) (lock : Lock)
        (wl : Slots) :
  NoDup (waiters wl) ->
  (forall wl' evs,
      WakeupOne NDEBUG lock wl = Some (wl', evs) -> NoDup (waiters wl'))
  /\ (forall wl' evs,
         WakeupAll NDEBUG lock wl = Some (wl', evs) -> NoDup (waiters wl'))
  /\ (forall c wl' evs,
         Remove NDEBUG (Some c) wl = Some (wl', evs) -> NoDup (waiters wl'))
  /\ (forall context wl' evs,
         Append NDEBUG lock context wl = Some (wl', evs) ->
         (forall c, context = Some c -> c ∉ waiters wl) ->
         NoDup (waiters wl')).
Proof.
  intros Hnd. split; [| split; [| split]].
  - intros wl' evs. unfold WakeupOne.
    destruct (assert_holds _ _); [| discriminate].
    destruct (WakeupOne_loop_waiters wl) as [_ Hw].
    intros [= E]. rewrite E in Hw. cbn [fst] in Hw.
    rewrite Hw. eapply sublist_NoDup; [exact Hnd | apply sublist_drop].
  - intros wl' evs. unfold WakeupAll.
    destruct (assert_holds _ _); [| discriminate].
    intros [= <- _]. apply NoDup_nil_2.
  - intros c wl' evs E.
    destruct (Remove_keeps_order wl c NDEBUG wl' evs E)
      as [[_ ->] | (before & after & Hw & _ & ->)]; [exact Hnd |].
    rewrite Hw in Hnd. apply NoDup_app in Hnd as (Hb & Hdisj & Ha).
    apply NoDup_cons in Ha as [_ Ha].
    apply NoDup_app. split; [exact Hb |]. split; [| exact Ha].
    intros x Hx Hx'. apply (Hdisj x Hx). apply elem_of_cons. auto.
  - intros context wl' evs. unfold Append.
    destruct (assert_holds _ _); [| discriminate].
    intros [= <- _] Hfresh. rewrite waiters_app.
    destruct context as [c |]; cbn.
    + apply NoDup_app. split; [exact Hnd |]. split; [| apply NoDup_singleton].
      intros x Hx Hx'. apply list_elem_of_singleton in Hx' as ->.
      exact (Hfresh c eq_refl Hx).
    + rewrite app_nil_r. exact Hnd.
Qed.

Lemma no_context_held_twice_is_kept_witness :
  NoDup (waiters [Some 1; None; Some 2]%nat)
  /\ forall wl' evs,
      WakeupOne false (mkLock true) [Some 1; None; Some 2]%nat
      = Some (wl', evs) ->
      NoDup (waiters wl').
Proof.
  assert (NoDup (waiters [Some 1; None; Some 2]%nat)) as Hnd.
  { cbn. apply NoDup_cons. split.
    - intros H. apply list_elem_of_singleton in H. discriminate.
    - apply NoDup_singleton. }
  split; [exact Hnd |].
  apply (no_context_held_twice_is_kept false (mkLock true)
           [Some 1; None; Some 2]%nat Hnd).
Defined.

(** X6.  [Remove] does not undo [Append]: after a context not yet held is
    appended and removed again the same contexts wait as before, but the
    list is one slot longer, the new slot being a reset one at the tail;
    slots leave the list only through the wake-ups. *)
Theorem Append_then_Remove_leaves_reset_slot (NDEBUG : bool) (lock : Lock)
        (c : handle) (wl : Slots) :
  assert_holds NDEBUG (owns_lock lock) = true ->
  Some c ∉ wl ->
  exists wl1,
    Append NDEBUG lock (Some c) wl = Some (wl1, [])
    /\ Remove NDEBUG (Some c) wl1 = Some (wl ++ [None], [])
    /\ waiters (wl ++ [None]) = waiters wl
    /\ length (wl ++ [None]) = S (length wl).
Proof.
  intros Hlock Hnot. exists (wl ++ [Some c]).
  split; [unfold Append; rewrite Hlock; reflexivity |].
  split; [| split].
  - induction wl as [| slot wl IH].
    + rewrite app_nil_l, Remove_cons_hit. cbn.
      unfold assert_holds. rewrite orb_true_r. reflexivity.
    + apply not_elem_of_cons in Hnot as [Hne Hnot].
      rewrite <- !app_comm_cons, Remove_cons_miss, (IH Hnot) by congruence.
      reflexivity.
  - rewrite waiters_app. cbn. apply app_nil_r.
  - rewrite length_app. cbn. lia.
Qed.

Lemma Append_then_Remove_leaves_reset_slot_witness :
  assert_holds false (owns_lock (mkLock true)) = true
  /\ (Some 3%nat ∉ [Some 1; Some 2]%nat)
  /\ exists wl1,
      Append false (mkLock true) (Some 3%nat) [Some 1; Some 2]%nat
      = Some (wl1, [])
      /\ Remove false (Some 3%nat) wl1
         = Some ([Some 1; Some 2]%nat ++ [None], [])
      /\ waiters ([Some 1; Some 2]%nat ++ [None])
         = waiters [Some 1; Some 2]%nat
      /\ length ([Some 1; Some 2]%nat ++ [None])
         = S (length [Some 1; Some 2]%nat).
Proof.
  assert (Some 3%nat ∉ [Some 1; Some 2]%nat) as Hnot.
  { intros H. repeat (apply elem_of_cons in H as [H | H]; [discriminate |]).
    apply elem_of_nil in H. exact H. }
  split; [reflexivity |]. split; [exact Hnot |].
  apply (Append_then_Remove_leaves_reset_slot false (mkLock true) 3%nat
           [Some 1; Some 2]%nat eq_refl Hnot).
Defined.

End WaitListComposition.

(** * Properties of runs of the task processor *)

Module RunsFacts.
Import TaskProcessor TaskProcessorFacts Runs.
Local Open Scope Z_scope.

Lemma run_cons (op : Op) (ops : list Op) (w : World) :
  snd (run (op :: ops) w) = snd (run ops (snd (run_op op w))).
Proof.
  cbn [run]. unfold mbind, M_bind. destruct (run_op op w). reflexivity.
Qed.

Lemma CheckWaitTime_trace (c : handle) (w : World) :
  exists evs, trace (snd (CheckWaitTime c w)) = trace w ++ evs.
Proof.
  rewrite CheckWaitTime_world. cbv zeta.
  destruct (max_task_queue_wait_time_ (proc w) =? 0).
  - exists []. cbn. rewrite app_nil_r. reflexivity.
  - match goal with
    | |- context [if ?b then snd (HandleOverload _ _) else _] => destruct b
    end; rewrite ?HandleOverload_world; cbn [trace];
      rewrite <- ?app_assoc; eauto.
Qed.

Lemma run_op_trace (op : Op) (w : World) :
  trace (snd (run_op op w)) = trace w ++ calls (run_op op) w.
Proof.
  assert (exists evs, trace (snd (run_op op w)) = trace w ++ evs) as [evs E].
  { destruct op as [c | c | t]; cbn [run_op].
    - rewrite Schedule_trace. eauto.
    - apply CheckWaitTime_trace.
    - exists []. cbn. rewrite app_nil_r. reflexivity. }
  rewrite (calls_app _ _ _ E). exact E.
Qed.

Lemma run_trace (ops : list Op) (w : World) :
  trace (snd (run ops w)) = trace w ++ calls (run ops) w.
Proof.
  assert (forall w, exists evs, trace (snd (run ops w)) = trace w ++ evs)
    as H.
  { induction ops as [| op ops IH]; intros w0.
    - exists []. cbn. rewrite app_nil_r. reflexivity.
    - rewrite run_cons. destruct (IH (snd (run_op op w0))) as [evs E].
      rewrite E, run_op_trace, <- app_assoc. eauto. }
  destruct (H w) as [evs E]. rewrite (calls_app _ _ _ E). exact E.
Qed.

Lemma run_calls_cons (op : Op) (ops : list Op) (w : World) :
  calls (run (op :: ops)) w
  = calls (run_op op) w ++ calls (run ops) (snd (run_op op w)).
Proof.
  apply calls_app.
  rewrite run_cons, run_trace, run_op_trace, <- app_assoc. reflexivity.
Qed.

Lemma run_calls_nil (w : World) : calls (run []) w = [].
Proof. unfold calls. cbn. apply drop_all. Qed.

(** What [CheckWaitTime] leaves of the world: all but the flag and the
    trace. *)
Lemma CheckWaitTime_frame (c : handle) (w : World) :
  let w' := snd (CheckWaitTime c w) in
  contexts w' = contexts w
  /\ task_count w' = task_count w
  /\ steady_clock_now w' = steady_clock_now w
  /\ is_shutting_down_ (proc w') = is_shutting_down_ (proc w)
  /\ task_queue_size_ (proc w') = task_queue_size_ (proc w)
  /\ max_task_queue_wait_time_ (proc w')
     = max_task_queue_wait_time_ (proc w)
  /\ max_task_queue_wait_length_ (proc w')
     = max_task_queue_wait_length_ (proc w)
  /\ overload_action_ (proc w') = overload_action_ (proc w)
  /\ task_queue_ (proc w') = task_queue_ (proc w).
Proof.
  cbv zeta. rewrite CheckWaitTime_world. cbv zeta.
  destruct (max_task_queue_wait_time_ (proc w) =? 0);
    [cbn; repeat split |].
  match goal with
  | |- context [if ?b then snd (HandleOverload _ _) else _] => destruct b
  end; rewrite ?HandleOverload_world; cbn; repeat split.
Qed.


Lemma size_t_wrap_idemp (a : Z) : size_t_wrap (size_t_wrap a) = size_t_wrap a.
Proof. unfold size_t_wrap. apply Zmod_mod. Qed.

(** The same for one step of a run. *)
Lemma run_op_frame (op : Op) (w : World) :
  let w' := snd (run_op op w) in
  is_shutting_down_ (proc w') = is_shutting_down_ (proc w)
  /\ max_task_queue_wait_time_ (proc w')
     = max_task_queue_wait_time_ (proc w)
  /\ max_task_queue_wait_length_ (proc w')
     = max_task_queue_wait_length_ (proc w)
  /\ overload_action_ (proc w') = overload_action_ (proc w)
  /\ task_queue_ (proc w') = task_queue_ (proc w) ++ scheduled [op]
  /\ size_t_wrap (task_queue_size_ (proc w'))
     = size_t_wrap (task_queue_size_ (proc w)
                    + Z.of_nat (length (scheduled [op])))
  /\ (forall c, is_critical (contexts w' c) = is_critical (contexts w c))
  /\ (forall c, c ∉ scheduled [op] -> contexts w' c = contexts w c).
Proof.
  cbv zeta. destruct op as [c | c | t]; cbn [run_op scheduled length].
  - rewrite Schedule_world. cbn.
    repeat split; try reflexivity.
    + apply size_t_wrap_idemp.
    + intros c'. destruct (Nat.eqb_spec c' c); reflexivity.
    + intros c' Hc'. destruct (Nat.eqb_spec c' c) as [-> | Hne];
        [| reflexivity].
      exfalso. apply Hc', elem_of_cons. auto.
  - destruct (CheckWaitTime_frame c w)
      as (Hc & _ & _ & Hsd & Hsize & Hmt & Hml & Hact & Hq).
    cbv zeta in *. rewrite Hc, Hsd, Hsize, Hmt, Hml, Hact, Hq, app_nil_r.
    cbn. rewrite Z.add_0_r. repeat split; reflexivity.
  - cbn. rewrite app_nil_r, Z.add_0_r. repeat split; reflexivity.
Qed.


(** The calls of [CheckWaitTime]. *)
Lemma CheckWaitTime_calls (c : handle) (w : World) :
  let s := proc w in
  let wait_timepoint := queue_wait_timepoint (contexts w c) in
  let overloaded :=
    if wait_timepoint =? time_point_zero
    then task_queue_wait_time_overloaded_ s
    else int64_wrap (max_task_queue_wait_time_ s * ticks_per_microsecond)
         <=? int64_wrap (steady_clock_now w - wait_timepoint) in
  calls (CheckWaitTime c) w =
  if max_task_queue_wait_time_ s =? 0 then []
  else (if wait_timepoint =? time_point_zero then [] else [EvSteadyClockNow])
       ++ (if overloaded then calls (HandleOverload c) w else []).
Proof.
  cbv zeta. apply calls_app. rewrite CheckWaitTime_world. cbv zeta.
  rewrite HandleOverload_calls.
  destruct (max_task_queue_wait_time_ (proc w) =? 0);
    [cbn; rewrite app_nil_r; reflexivity |].
  destruct (queue_wait_timepoint (contexts w c) =? time_point_zero);
    cbn [negb];
    match goal with
    | |- context [if ?b then snd (HandleOverload _ _) else _] => destruct b
    end; rewrite ?HandleOverload_world; cbn; rewrite <- ?app_assoc;
      rewrite ?app_nil_r; reflexivity.
Qed.

Lemma CheckWaitTime_flag (c : handle) (w : World) :
  let s := proc w in
  let wait_timepoint := queue_wait_timepoint (contexts w c) in
  task_queue_wait_time_overloaded_ (proc (snd (CheckWaitTime c w))) =
  if max_task_queue_wait_time_ s =? 0 then false
  else if wait_timepoint =? time_point_zero
       then task_queue_wait_time_overloaded_ s
       else int64_wrap (max_task_queue_wait_time_ s * ticks_per_microsecond)
            <=? int64_wrap (steady_clock_now w - wait_timepoint).
Proof.
  cbv zeta. rewrite CheckWaitTime_world. cbv zeta.
  destruct (max_task_queue_wait_time_ (proc w) =? 0); [reflexivity |].
  destruct (queue_wait_timepoint (contexts w c) =? time_point_zero);
    cbn [negb];
    match goal with
    | |- context [if ?b then snd (HandleOverload _ _) else _] => destruct b
    end; rewrite ?HandleOverload_world; reflexivity.
Qed.

Lemma plain_call_mono (cs cs' : list handle) (e : Event) :
  (forall c, c ∈ cs -> c ∈ cs') -> plain_call cs e -> plain_call cs' e.
Proof.
  intros Hsub [-> | (c & Hc & He)]; [left; reflexivity | right].
  exists c. auto.
Qed.

Lemma run_op_plain (op : Op) (w : World) :
  is_shutting_down_ (proc w) = false ->
  max_task_queue_wait_length_ (proc w) = 0 ->
  max_task_queue_wait_time_ (proc w) = 0 ->
  forall e, e ∈ calls (run_op op) w -> plain_call (scheduled [op]) e.
Proof.
  intros Hsd Hml Hmt e. destruct op as [c | c | t]; cbn [run_op scheduled].
  - rewrite Schedule_calls. cbv zeta. rewrite Hsd, Hml. cbn.
    destruct (task_count w mod kTaskTimestampFrequency =? 0); cbn;
      rewrite ?elem_of_cons, elem_of_nil;
      intros H; decompose [or] H; subst; try contradiction;
        try (left; reflexivity);
        right; exists c; (split; [apply elem_of_cons; auto | auto]).
  - rewrite CheckWaitTime_calls. cbv zeta. rewrite Hmt. cbn.
    intros H. apply elem_of_nil in H. contradiction.
  - unfold calls. cbn. rewrite drop_all.
    intros H. apply elem_of_nil in H. contradiction.
Qed.

(** X8.  With both limits zero and no shutdown in progress, as the
    constructor leaves a processor, nothing a thread schedules or checks
    reaches the overload handler or cancels a context: the only calls made
    are clock reads and, for the contexts scheduled, the reference taken
    and the enqueue; and the overloaded flag is never raised. *)
Theorem no_overload_handling_when_limits_are_zero (ops : list Op)
        (w : World) :
  is_shutting_down_ (proc w) = false ->
  max_task_queue_wait_length_ (proc w) = 0 ->
  max_task_queue_wait_time_ (proc w) = 0 ->
  (forall e, e ∈ calls (run ops) w ->
             e = EvSteadyClockNow
             \/ exists c, c ∈ scheduled ops
                          /\ (e = EvIntrusivePtrAddRef c \/ e = EvEnqueue c))
  /\ (task_queue_wait_time_overloaded_ (proc (snd (run ops w))) = true ->
      task_queue_wait_time_overloaded_ (proc w) = true).
Proof.
  revert w. induction ops as [| op ops IH]; intros w Hsd Hml Hmt.
  - split; [| auto]. rewrite run_calls_nil. intros e H.
    apply elem_of_nil in H. contradiction.
  - destruct (run_op_frame op w) as (Hsd1 & Hmt1 & Hml1 & _).
    cbv zeta in *.
    destruct (IH (snd (run_op op w))) as [IHcalls IHflag];
      [congruence | congruence | congruence |].
    split.
    + intros e. rewrite run_calls_cons, elem_of_app. intros [He | He].
      * apply (plain_call_mono (scheduled [op])).
        -- destruct op; cbn; intros c Hc; [| apply elem_of_nil in Hc;
             contradiction ..].
           apply list_elem_of_singleton in Hc as ->. apply elem_of_cons. auto.
        -- eapply run_op_plain; eassumption.
      * apply (plain_call_mono (scheduled ops)); [| exact (IHcalls e He)].
        destruct op; cbn; intros c Hc; [apply elem_of_cons; auto | auto ..].
    + rewrite run_cons. intros Hflag. specialize (IHflag Hflag).
      destruct op as [c | c | t]; cbn [run_op] in IHflag.
      * rewrite Schedule_world in IHflag. exact IHflag.
      * rewrite CheckWaitTime_flag in IHflag. cbv zeta in IHflag.
        rewrite Hmt in IHflag. discriminate.
      * exact IHflag.
Qed.

Lemma no_overload_handling_when_limits_are_zero_witness :
  is_shutting_down_ (proc Examples.world0) = false
  /\ max_task_queue_wait_length_ (proc Examples.world0) = 0
  /\ max_task_queue_wait_time_ (proc Examples.world0) = 0
  /\ forall e,
      e ∈ calls (run [OpSchedule 1%nat; OpClock 5; OpCheckWaitTime 1%nat])
            Examples.world0 ->
      e = EvSteadyClockNow
      \/ exists c,
          c ∈ scheduled [OpSchedule 1%nat; OpClock 5; OpCheckWaitTime 1%nat]
          /\ (e = EvIntrusivePtrAddRef c \/ e = EvEnqueue c).
Proof.
  split; [reflexivity |]. split; [reflexivity |]. split; [reflexivity |].
  apply (no_overload_handling_when_limits_are_zero
           [OpSchedule 1%nat; OpClock 5; OpCheckWaitTime 1%nat]
           Examples.world0 eq_refl eq_refl eq_refl).
Defined.

(** *** Bursts of [Schedule] *)

Lemma Schedule_overload_count (c : handle) (w : World) :
  let s := proc w in
  let over := negb (max_task_queue_wait_length_ s =? 0)
              && negb (is_critical (contexts w c))
              && (max_task_queue_wait_length_ s <=? task_queue_size_ s) in
  occurrences EvAccountTaskOverload (calls (Schedule c) w)
  = (if over then 1 else 0)%nat
  /\ occurrences EvAccountTaskCancelOverload (calls (Schedule c) w)
     = (if over then match overload_action_ s with
                     | kCancel => 1
                     | kIgnore => 0
                     end
        else 0)%nat.
Proof.
  cbv zeta. rewrite Schedule_calls, HandleOverload_calls. cbv zeta.
  unfold occurrences. rewrite !count_occ_app.
  destruct (max_task_queue_wait_length_ (proc w) =? 0),
    (is_critical (contexts w c)),
    (max_task_queue_wait_length_ (proc w) <=? task_queue_size_ (proc w)),
    (overload_action_ (proc w)), (is_shutting_down_ (proc w)),
    (task_count w mod kTaskTimestampFrequency =? 0);
    split; reflexivity.
Qed.

Lemma Schedule_keeps (c : handle) (w : World) :
  let w' := snd (Schedule c w) in
  max_task_queue_wait_length_ (proc w') = max_task_queue_wait_length_ (proc w)
  /\ overload_action_ (proc w') = overload_action_ (proc w)
  /\ task_queue_size_ (proc w') = size_t_wrap (task_queue_size_ (proc w) + 1)
  /\ forall c', is_critical (contexts w' c') = is_critical (contexts w c').
Proof.
  cbv zeta. rewrite Schedule_world. cbn. repeat split.
  intros c'. destruct (Nat.eqb_spec c' c); reflexivity.
Qed.

(** X9.  A burst of [Schedule] calls of contexts that are not critical,
    with no worker dequeuing in between, lets through as many contexts as
    the queue size is short of the length limit and hands every later one
    to the overload handler; each of those is also accounted as cancelled
    when the action is [kCancel], and none is when it is [kIgnore].  (The
    limit is positive and the size does not wrap during the burst.) *)
Theorem ScheduleAll_overload_count (cs : list handle) (w : World) :
  let max_length := max_task_queue_wait_length_ (proc w) in
  let size := task_queue_size_ (proc w) in
  let handled := (length cs - Z.to_nat (max_length - size))%nat in
  0 < max_length ->
  0 <= size ->
  size + Z.of_nat (length cs) < size_t_modulus ->
  (forall c, c ∈ cs -> is_critical (contexts w c) = false) ->
  occurrences EvAccountTaskOverload (calls (ScheduleAll cs) w) = handled
  /\ occurrences EvAccountTaskCancelOverload (calls (ScheduleAll cs) w)
     = match overload_action_ (proc w) with
       | kCancel => handled
       | kIgnore => 0%nat
       end.
Proof.
  cbv zeta. revert w. induction cs as [| c cs IH]; intros w HL Hs Hn Hcrit.
  - unfold calls. cbn. rewrite drop_all.
    destruct (overload_action_ (proc w)); split; reflexivity.
  - destruct (Schedule_keeps c w) as (Hml & Hact & Hsize & Hcrit').
    cbv zeta in Hml, Hact, Hsize, Hcrit'.
    assert (size_t_wrap (task_queue_size_ (proc w) + 1)
            = task_queue_size_ (proc w) + 1) as Hwrap.
    { unfold size_t_wrap. apply Z.mod_small. cbn [length] in Hn. lia. }
    rewrite Hwrap in Hsize.
    destruct (IH (snd (Schedule c w))) as [IHo IHc].
    + rewrite Hml. exact HL.
    + rewrite Hsize. lia.
    + rewrite Hsize. cbn [length] in Hn. lia.
    + intros c' Hc'. rewrite Hcrit'. apply Hcrit, elem_of_cons. auto.
    + rewrite Hml, Hsize in IHo. rewrite Hml, Hsize, Hact in IHc.
      destruct (Schedule_overload_count c w) as [Ho Hc].
      cbv zeta in Ho, Hc.
      rewrite (Hcrit c) in Ho, Hc by (apply elem_of_cons; auto).
      assert ((max_task_queue_wait_length_ (proc w) =? 0) = false) as E0
          by (apply Z.eqb_neq; lia).
      rewrite E0 in Ho, Hc. cbn [negb andb] in Ho, Hc.
      rewrite ScheduleAll_calls_cons. unfold occurrences in *.
      rewrite !count_occ_app, Ho, Hc, IHo. cbn [length].
      destruct (Z.leb_spec0 (max_task_queue_wait_length_ (proc w))
                            (task_queue_size_ (proc w))) as [Hle | Hgt].
      * split; [lia |].
        destruct (overload_action_ (proc w)); [exact IHc |].
        rewrite IHc. lia.
      * split; [lia |].
        destruct (overload_action_ (proc w)); [exact IHc |].
        rewrite IHc. lia.
Qed.

Lemma ScheduleAll_overload_count_witness :
  0 < max_task_queue_wait_length_ (proc Examples.world_limit4)
  /\ 0 <= task_queue_size_ (proc Examples.world_limit4)
  /\ task_queue_size_ (proc Examples.world_limit4)
     + Z.of_nat (length (seq 1 10)) < size_t_modulus
  /\ (forall c, c ∈ seq 1 10 ->
                is_critical (contexts Examples.world_limit4 c) = false)
  /\ occurrences EvAccountTaskOverload
       (calls (ScheduleAll (seq 1 10)) Examples.world_limit4) = 6%nat.
Proof.
  assert (forall c, c ∈ seq 1 10 ->
                    is_critical (contexts Examples.world_limit4 c) = false)
    as Hcrit.
  { intros c Hc. apply elem_of_seq in Hc. cbn.
    apply Nat.eqb_neq. lia. }
  split; [reflexivity |]. split; [cbn; lia |]. split; [reflexivity |].
  split; [exact Hcrit |].
  apply (ScheduleAll_overload_count (seq 1 10) Examples.world_limit4
           eq_refl ltac:(cbn; lia) eq_refl Hcrit).
Defined.

(** *** Which cancellations are requested *)

(** X10.  [Schedule] requests cancellation of no context but the one it is
    given, and only for two reasons: [kOverload], exactly when the length
    check fires and the action is [kCancel], and [kShutdown], exactly when
    the processor is shutting down.  When both apply, the request for
    [kOverload] is made first. *)
Theorem Schedule_cancels_only_its_context (c : handle) (w : World) :
  let s := proc w in
  let over := max_task_queue_wait_length_ s <> 0
              /\ max_task_queue_wait_length_ s <= task_queue_size_ s
              /\ is_critical (contexts w c) = false in
  (forall c' r,
      EvRequestCancel c' r ∈ calls (Schedule c) w <->
      c' = c
      /\ ((r = kOverload /\ over /\ overload_action_ s = kCancel)
          \/ (r = kShutdown /\ is_shutting_down_ s = true)))
  /\ (over -> overload_action_ s = kCancel -> is_shutting_down_ s = true ->
      exists l1 l2 l3,
        calls (Schedule c) w
        = l1 ++ EvRequestCancel c kOverload
             :: l2 ++ EvRequestCancel c kShutdown :: l3).
Proof.
  cbv zeta. rewrite Schedule_calls, HandleOverload_calls. cbv zeta.
  pose proof (length_overload_iff (max_task_queue_wait_length_ (proc w))
                (task_queue_size_ (proc w))
                (is_critical (contexts w c))) as Hiff.
  destruct (negb (max_task_queue_wait_length_ (proc w) =? 0)
            && negb (is_critical (contexts w c))
            && (max_task_queue_wait_length_ (proc w)
                <=? task_queue_size_ (proc w))) eqn:Eover.
  - assert (is_critical (contexts w c) = false) as Ecrit
        by (apply Hiff; reflexivity).
    rewrite Ecrit in *. split.
    + intros c' r.
      destruct (overload_action_ (proc w)), (is_shutting_down_ (proc w)),
        (task_count w mod kTaskTimestampFrequency =? 0); cbn;
        rewrite ?elem_of_cons, elem_of_nil; split.
      all: try (intros H; among H;
                (injection H as -> ->;
                 (split; [reflexivity |
                  first [ left; split; [reflexivity |];
                          split; [apply Hiff; reflexivity | reflexivity]
                        | right; split; reflexivity ]]))).
      all: intros (-> & [(-> & _ & Hact) | (-> & Hsd)]);
        try discriminate; pick.
    + intros _ -> ->.
      exists [EvAccountTaskOverload], [EvAccountTaskCancelOverload],
        ((if task_count w mod kTaskTimestampFrequency =? 0
          then [EvSteadyClockNow] else [])
         ++ [EvIntrusivePtrAddRef c; EvEnqueue c]).
      reflexivity.
  - assert (~ (max_task_queue_wait_length_ (proc w) <> 0
               /\ max_task_queue_wait_length_ (proc w)
                  <= task_queue_size_ (proc w)
               /\ is_critical (contexts w c) = false)) as Hn
        by (intros H; apply Hiff in H; congruence).
    split; [| intros H; contradiction].
    intros c' r.
    destruct (is_shutting_down_ (proc w)),
      (task_count w mod kTaskTimestampFrequency =? 0); cbn;
      rewrite ?elem_of_cons, elem_of_nil; split.
    all: try (intros H; among H;
              (injection H as -> ->;
               (split; [reflexivity | right; split; reflexivity]))).
    all: intros (-> & [(-> & Ho & _) | (-> & Hsd)]);
      try contradiction; try discriminate; pick.
Qed.

Lemma Schedule_cancels_only_its_context_witness :
  exists l1 l2 l3,
    calls (Schedule 5%nat)
      (mkWorld (mkState true 2 0 2 kCancel false []) 0
         (fun _ => mkTaskContext false 0) 7 [])
    = l1 ++ EvRequestCancel 5%nat kOverload
         :: l2 ++ EvRequestCancel 5%nat kShutdown :: l3.
Proof.
  apply (Schedule_cancels_only_its_context 5%nat
           (mkWorld (mkState true 2 0 2 kCancel false []) 0
              (fun _ => mkTaskContext false 0) 7 [])).
  - cbn. repeat split; lia.
  - reflexivity.
  - reflexivity.
Defined.

Lemma CheckWaitTime_cancel_iff (c : handle) (w : World) :
  forall c' r,
    EvRequestCancel c' r ∈ calls (CheckWaitTime c) w <->
    c' = c /\ r = kOverload
    /\ max_task_queue_wait_time_ (proc w) <> 0
    /\ task_queue_wait_time_overloaded_ (proc (snd (CheckWaitTime c w)))
       = true
    /\ overload_action_ (proc w) = kCancel
    /\ is_critical (contexts w c) = false.
Proof.
  intros c' r.
  rewrite CheckWaitTime_calls, CheckWaitTime_flag, HandleOverload_calls.
  cbv zeta.
  destruct (Z.eqb_spec (max_task_queue_wait_time_ (proc w)) 0) as [E0 | E0].
  - rewrite elem_of_nil. split; [contradiction |].
    intros (_ & _ & H & _). contradiction.
  - destruct (queue_wait_timepoint (contexts w c) =? time_point_zero);
      match goal with
      | |- context [if ?b then EvAccountTaskOverload :: _ else _] =>
          destruct b
      end;
      destruct (overload_action_ (proc w)), (is_critical (contexts w c));
      cbn; rewrite ?elem_of_cons, elem_of_nil; split.
    all: try (intros H; among H; (injection H as -> ->; auto 10)).
    all: intros (-> & -> & _ & Hf & Ha & Hc); try discriminate; pick.
Qed.

(** X11.  [CheckWaitTime] requests cancellation of no context but the one
    it checks and for no reason but [kOverload], and it does so exactly
    when the wait limit is nonzero, the flag it leaves is true, the action
    is [kCancel] and the context is not critical. *)
Theorem CheckWaitTime_cancels_only_its_context (c : handle) (w : World) :
  forall c' r,
    EvRequestCancel c' r ∈ calls (CheckWaitTime c) w <->
    c' = c /\ r = kOverload
    /\ max_task_queue_wait_time_ (proc w) <> 0
    /\ task_queue_wait_time_overloaded_ (proc (snd (CheckWaitTime c w)))
       = true
    /\ overload_action_ (proc w) = kCancel
    /\ is_critical (contexts w c) = false.
Proof. exact (CheckWaitTime_cancel_iff c w). Qed.

(** *** From [Schedule] to [CheckWaitTime] *)

(** The world in which a worker checks a context: as [Schedule] left it,
    with the clock at [t]. *)
Lemma scheduled_world (c : handle) (w : World) (t : time_point) :
  let w2 := snd (clock_advances t (snd (Schedule c w))) in
  proc w2 = proc (snd (Schedule c w))
  /\ steady_clock_now w2 = t
  /\ queue_wait_timepoint (contexts w2 c)
     = (if task_count w mod kTaskTimestampFrequency =? 0
        then steady_clock_now w else time_point_zero)
  /\ is_critical (contexts w2 c) = is_critical (contexts w c)
  /\ max_task_queue_wait_time_ (proc w2)
     = max_task_queue_wait_time_ (proc w)
  /\ overload_action_ (proc w2) = overload_action_ (proc w)
  /\ task_queue_wait_time_overloaded_ (proc w2)
     = task_queue_wait_time_overloaded_ (proc w).
Proof.
  cbv zeta. rewrite Schedule_world. cbn. rewrite Nat.eqb_refl. cbn.
  repeat split.
Qed.

(** X12.  A context scheduled by a call that stamps it (the thread's
    counter at a multiple of 16, the clock not at zero) and checked by a
    worker when the clock reads [t], under a nonzero wait limit: the flag
    becomes the outcome of the comparison of the limit with [t] minus the
    stamp, both as [int64_t] tick counts, and the context is cancelled for
    overload exactly when the comparison holds, the action is [kCancel] and
    the context is not critical.  When the limit in ticks and the wait both
    fit in [int64_t], the comparison is whether the wait has reached the
    limit. *)
Theorem stamped_context_is_judged_by_its_wait (c : handle) (w : World)
        (t : time_point) :
  let w2 := snd (clock_advances t (snd (Schedule c w))) in
  let limit :=
    max_task_queue_wait_time_ (proc w) * ticks_per_microsecond in
  let wait := t - steady_clock_now w in
  task_count w mod kTaskTimestampFrequency = 0 ->
  steady_clock_now w <> time_point_zero ->
  max_task_queue_wait_time_ (proc w) <> 0 ->
  task_queue_wait_time_overloaded_ (proc (snd (CheckWaitTime c w2)))
  = (int64_wrap limit <=? int64_wrap wait)
  /\ (EvRequestCancel c kOverload ∈ calls (CheckWaitTime c) w2 <->
      int64_wrap limit <= int64_wrap wait
      /\ overload_action_ (proc w) = kCancel
      /\ is_critical (contexts w c) = false)
  /\ (in_int64 limit -> in_int64 wait ->
      task_queue_wait_time_overloaded_ (proc (snd (CheckWaitTime c w2)))
      = (limit <=? wait)
      /\ (EvRequestCancel c kOverload ∈ calls (CheckWaitTime c) w2 <->
          limit <= wait
          /\ overload_action_ (proc w) = kCancel
          /\ is_critical (contexts w c) = false)).
Proof.
  cbv zeta. intros Hstamp Hclock Hmax.
  destruct (scheduled_world c w t)
    as (_ & Hnow & Htp & Hcrit & Hmt & Hact & _).
  cbv zeta in *.
  apply Z.eqb_eq in Hstamp. rewrite Hstamp in Htp.
  assert (task_queue_wait_time_overloaded_
            (proc (snd (CheckWaitTime c
                          (snd (clock_advances t (snd (Schedule c w)))))))
          = (int64_wrap (max_task_queue_wait_time_ (proc w)
                         * ticks_per_microsecond)
             <=? int64_wrap (t - steady_clock_now w))) as Hflag.
  { rewrite CheckWaitTime_flag. cbv zeta. rewrite Hmt, Htp, Hnow.
    rewrite (proj2 (Z.eqb_neq _ _) Hmax), (proj2 (Z.eqb_neq _ _) Hclock).
    reflexivity. }
  assert (EvRequestCancel c kOverload
          ∈ calls (CheckWaitTime c)
              (snd (clock_advances t (snd (Schedule c w)))) <->
          int64_wrap (max_task_queue_wait_time_ (proc w)
                      * ticks_per_microsecond)
          <= int64_wrap (t - steady_clock_now w)
          /\ overload_action_ (proc w) = kCancel
          /\ is_critical (contexts w c) = false) as Hcancel.
  { rewrite CheckWaitTime_cancel_iff, Hflag, Hmt, Hact, Hcrit.
    rewrite Z.leb_le. intuition congruence. }
  split; [exact Hflag |]. split; [exact Hcancel |].
  intros Hlimit Hwait.
  rewrite (int64_wrap_id _ Hlimit), (int64_wrap_id _ Hwait) in Hflag, Hcancel.
  split; assumption.
Qed.

Lemma stamped_context_is_judged_by_its_wait_witness :
  task_count Examples.world_waiting mod kTaskTimestampFrequency = 0
  /\ steady_clock_now Examples.world_waiting <> time_point_zero
  /\ max_task_queue_wait_time_ (proc Examples.world_waiting) <> 0
  /\ in_int64 (max_task_queue_wait_time_ (proc Examples.world_waiting)
               * ticks_per_microsecond)
  /\ in_int64 (1010000 - steady_clock_now Examples.world_waiting)
  /\ task_queue_wait_time_overloaded_
       (proc (snd (CheckWaitTime 5%nat
                     (snd (clock_advances 1010000
                             (snd (Schedule 5%nat Examples.world_waiting)))))))
     = true.
Proof.
  assert (steady_clock_now Examples.world_waiting <> time_point_zero)
    as Hclock by (cbn; unfold time_point_zero; lia).
  assert (max_task_queue_wait_time_ (proc Examples.world_waiting) <> 0)
    as Hmax by (cbn; lia).
  assert (in_int64 (max_task_queue_wait_time_ (proc Examples.world_waiting)
                    * ticks_per_microsecond))
    as Hlimit by (vm_compute; split; [discriminate | reflexivity]).
  assert (in_int64 (1010000 - steady_clock_now Examples.world_waiting))
    as Hwait by (vm_compute; split; [discriminate | reflexivity]).
  split; [reflexivity |]. split; [exact Hclock |]. split; [exact Hmax |].
  split; [exact Hlimit |]. split; [exact Hwait |].
  destruct (stamped_context_is_judged_by_its_wait
              5%nat Examples.world_waiting 1010000 eq_refl Hclock Hmax)
    as (_ & _ & Hrange).
  destruct (Hrange Hlimit Hwait) as [Hflag _].
  rewrite Hflag. reflexivity.
Defined.

(** X13.  A context scheduled by a call that does not stamp it, or one that
    stamps it while the clock reads zero, is checked without a clock read:
    under a nonzero wait limit the flag stays as it was, and the overload
    handler runs on the context exactly when the flag was already true. *)
Theorem unstamped_context_inherits_the_verdict (c : handle) (w : World)
        (t : time_point) :
  let w2 := snd (clock_advances t (snd (Schedule c w))) in
  task_count w mod kTaskTimestampFrequency <> 0
  \/ steady_clock_now w = time_point_zero ->
  max_task_queue_wait_time_ (proc w) <> 0 ->
  task_queue_wait_time_overloaded_ (proc (snd (CheckWaitTime c w2)))
  = task_queue_wait_time_overloaded_ (proc w)
  /\ (EvSteadyClockNow ∉ calls (CheckWaitTime c) w2)
  /\ calls (CheckWaitTime c) w2
     = if task_queue_wait_time_overloaded_ (proc w)
       then calls (HandleOverload c) w else [].
Proof.
  cbv zeta. intros Hno Hmax.
  destruct (scheduled_world c w t)
    as (_ & Hnow & Htp & Hcrit & Hmt & Hact & Hflag).
  cbv zeta in *.
  assert (queue_wait_timepoint
            (contexts (snd (clock_advances t (snd (Schedule c w)))) c)
          = time_point_zero) as Hzero.
  { rewrite Htp. destruct Hno as [Hno | Hno].
    - apply Z.eqb_neq in Hno. rewrite Hno. reflexivity.
    - destruct (_ =? 0); [exact Hno | reflexivity]. }
  assert (calls (CheckWaitTime c)
            (snd (clock_advances t (snd (Schedule c w))))
          = if task_queue_wait_time_overloaded_ (proc w)
            then calls (HandleOverload c) w else []) as Hcalls.
  { rewrite CheckWaitTime_calls. cbv zeta.
    rewrite Hmt, Hzero, Hflag, (proj2 (Z.eqb_neq _ _) Hmax), Z.eqb_refl.
    cbn [app].
    rewrite !HandleOverload_calls, Hact, Hcrit. reflexivity. }
  split; [| split; [| exact Hcalls]].
  - rewrite CheckWaitTime_flag. cbv zeta.
    rewrite Hmt, Hzero, Hflag, (proj2 (Z.eqb_neq _ _) Hmax), Z.eqb_refl.
    reflexivity.
  - rewrite Hcalls, HandleOverload_calls.
    destruct (task_queue_wait_time_overloaded_ (proc w)),
      (overload_action_ (proc w)), (is_critical (contexts w c));
      not_among.
Qed.

Lemma unstamped_context_inherits_the_verdict_witness :
  (task_count (snd (Schedule 4%nat Examples.world_waiting))
     mod kTaskTimestampFrequency <> 0
   \/ steady_clock_now (snd (Schedule 4%nat Examples.world_waiting))
      = time_point_zero)
  /\ max_task_queue_wait_time_
       (proc (snd (Schedule 4%nat Examples.world_waiting))) <> 0
  /\ task_queue_wait_time_overloaded_
       (proc (snd (CheckWaitTime 5%nat
                     (snd (clock_advances 1010000
                             (snd (Schedule 5%nat
                                     (snd (Schedule 4%nat
                                             Examples.world_waiting)))))))))
     = false.
Proof.
  assert (task_count (snd (Schedule 4%nat Examples.world_waiting))
            mod kTaskTimestampFrequency <> 0
          \/ steady_clock_now (snd (Schedule 4%nat Examples.world_waiting))
             = time_point_zero) as Hno by (left; vm_compute; discriminate).
  assert (max_task_queue_wait_time_
            (proc (snd (Schedule 4%nat Examples.world_waiting))) <> 0)
    as Hmax by (vm_compute; discriminate).
  split; [exact Hno |]. split; [exact Hmax |].
  destruct (unstamped_context_inherits_the_verdict
              5%nat (snd (Schedule 4%nat Examples.world_waiting)) 1010000
              Hno Hmax) as [Hflag _].
  rewrite Hflag. reflexivity.
Defined.

(** X14.  A critical context whose measured wait has reached the limit, as
    the check compares them (two [int64_t] tick counts), is not cancelled,
    but its check raises the flag, and the check of the next context that
    has no time stamp and is not critical then cancels that one for
    overload (the action being [kCancel]). *)
Theorem critical_wait_cancels_the_next (c1 c2 : handle) (w : World) :
  let w1 := snd (CheckWaitTime c1 w) in
  max_task_queue_wait_time_ (proc w) <> 0 ->
  overload_action_ (proc w) = kCancel ->
  is_critical (contexts w c1) = true ->
  queue_wait_timepoint (contexts w c1) <> time_point_zero ->
  int64_wrap (max_task_queue_wait_time_ (proc w) * ticks_per_microsecond)
  <= int64_wrap (steady_clock_now w
                 - queue_wait_timepoint (contexts w c1)) ->
  is_critical (contexts w c2) = false ->
  queue_wait_timepoint (contexts w c2) = time_point_zero ->
  (forall c' r, EvRequestCancel c' r ∉ calls (CheckWaitTime c1) w)
  /\ task_queue_wait_time_overloaded_ (proc w1) = true
  /\ (EvRequestCancel c2 kOverload ∈ calls (CheckWaitTime c2) w1).
Proof.
  cbv zeta. intros Hmax Hact Hcrit1 Htp1 Hwait Hcrit2 Htp2.
  assert (task_queue_wait_time_overloaded_ (proc (snd (CheckWaitTime c1 w)))
          = true) as Hflag.
  { rewrite CheckWaitTime_flag. cbv zeta.
    rewrite (proj2 (Z.eqb_neq _ _) Hmax), (proj2 (Z.eqb_neq _ _) Htp1).
    apply Z.leb_le, Hwait. }
  destruct (CheckWaitTime_frame c1 w)
    as (Hctx & _ & _ & _ & _ & Hmt & _ & Hact' & _).
  cbv zeta in *.
  split; [| split; [exact Hflag |]].
  - intros c' r H. apply CheckWaitTime_cancel_iff in H.
    destruct H as (_ & _ & _ & _ & _ & H). congruence.
  - apply CheckWaitTime_cancel_iff.
    rewrite Hctx, Hmt, Hact'. repeat split; try assumption.
    rewrite CheckWaitTime_flag. cbv zeta.
    rewrite Hctx, Hmt, Htp2, Hflag, (proj2 (Z.eqb_neq _ _) Hmax),
      Z.eqb_refl.
    reflexivity.
Qed.

Lemma critical_wait_cancels_the_next_witness :
  EvRequestCancel 8%nat kOverload
  ∈ calls (CheckWaitTime 8%nat)
      (snd (CheckWaitTime 7%nat Examples.world_critical_waiting)).
Proof.
  apply (critical_wait_cancels_the_next 7%nat 8%nat
           Examples.world_critical_waiting).
  - cbn. lia.
  - reflexivity.
  - reflexivity.
  - cbn. unfold time_point_zero. lia.
  - vm_compute. discriminate.
  - reflexivity.
  - reflexivity.
Defined.

(** *** Polling *)

Lemma DequeueTask_result_indep (script : list DequeueOutcome)
      (w w' : World) :
  fst (DequeueTask script w) = fst (DequeueTask script w').
Proof.
  revert w w'. induction script as [| [c | []] rest IH]; intros w w';
    try reflexivity.
  rewrite !DequeueTask_running. apply IH.
Qed.

Lemma DequeueTask_polls (k : nat) (rest : list DequeueOutcome) (w : World) :
  fst (DequeueTask (replicate k (TimedOut true) ++ rest) w)
  = fst (DequeueTask rest w)
  /\ calls (DequeueTask (replicate k (TimedOut true) ++ rest)) w
     = replicate k EvAccountTaskSwitchSlow ++ calls (DequeueTask rest) w.
Proof.
  assert (forall script w0,
             calls (DequeueTask script) w0
             = replicate (running_timeouts (attempts script))
                 EvAccountTaskSwitchSlow) as Hcalls
      by (intros; apply calls_app, DequeueTask_trace).
  split.
  - revert w. induction k as [| k IH]; intros w; [reflexivity |].
    cbn [replicate app]. rewrite DequeueTask_running, IH.
    apply DequeueTask_result_indep.
  - rewrite !Hcalls. rewrite <- replicate_add. f_equal.
    induction k as [| k IH]; [reflexivity |].
    cbn [replicate app attempts]. unfold running_timeouts in *. cbn.
    rewrite IH. reflexivity.
Qed.

(** X23.  [DequeueTask] stays in its loop exactly as long as every wait
    times out and finds the processor running, and it accounts one slow
    switch for each such wait; the waits that come before the one that
    ends the loop do not change what is returned. *)
Theorem DequeueTask_keeps_polling (script : list DequeueOutcome)
        (w : World) :
  (fst (DequeueTask script w) = None <->
   script = replicate (length script) (TimedOut true))
  /\ (fst (DequeueTask script w) = None ->
      calls (DequeueTask script) w
      = replicate (length script) EvAccountTaskSwitchSlow)
  /\ (forall k rest,
        script = replicate k (TimedOut true) ++ rest ->
        fst (DequeueTask script w) = fst (DequeueTask rest w)
        /\ calls (DequeueTask script) w
           = replicate k EvAccountTaskSwitchSlow
             ++ calls (DequeueTask rest) w).
Proof.
  assert (forall script w0,
             fst (DequeueTask script w0) = None <->
             script = replicate (length script) (TimedOut true)) as Hnone.
  { clear. intros script. induction script as [| [c | []] rest IH];
      intros w0.
    - split; reflexivity.
    - split; discriminate.
    - rewrite DequeueTask_running, IH. cbn [length replicate].
      split; [intros <-; reflexivity | intros [= <-]; reflexivity].
    - split; discriminate. }
  split; [apply Hnone |]. split.
  - intros E. apply Hnone in E.
    destruct (DequeueTask_polls (length script) [] w) as [_ Hc].
    rewrite app_nil_r, <- E in Hc. rewrite Hc.
    unfold calls. cbn. rewrite drop_all, app_nil_r. reflexivity.
  - intros k rest ->. apply DequeueTask_polls.
Qed.

End RunsFacts.

(** * Properties of the worker loop, adoption and destruction *)

Module LifecycleFacts.
Import TaskProcessor TaskProcessorFacts Lifecycle.
#[local] Set Warnings "-clear-no-such-hyp".

(** X15.  [Adopt] stops at its assertion exactly when assertions are
    compiled in and the context, not finished, is already in the detached
    set; otherwise it returns, having marked the context detached and left
    the processor and every other context alone.  A finished context is
    not put in the set and the reference passed is dropped; a context not
    finished is in the set afterwards and no reference is dropped. *)
Theorem Adopt_spec (NDEBUG : bool) (c : handle) (p : Processor) :
  (Adopt NDEBUG c p = Halted AssertionFailed <->
   NDEBUG = false /\ (c ∉ finished p) /\ (c ∈ detached_contexts_ p))
  /\ (forall h, Adopt NDEBUG c p = Halted h -> h = AssertionFailed)
  /\ (forall a p',
        Adopt NDEBUG c p = Done a p' ->
        world p' = world p
        /\ is_running_ p' = is_running_ p
        /\ workers_ p' = workers_ p
        /\ finished p' = finished p
        /\ detached p' = {[c]} ∪ detached p
        /\ detached_contexts_ p'
           = (if decide (c ∈ finished p) then detached_contexts_ p
              else {[c]} ∪ detached_contexts_ p)
        /\ made p'
           = made p ++ (if decide (c ∈ finished p)
                        then [CallIntrusivePtrRelease c] else [])).
Proof.
  run_life.
  destruct (decide (c ∈ finished p)) as [Hfin | Hfin].
  - rewrite (bool_decide_eq_true_2 _ Hfin). cbn.
    split; [split; [discriminate | tauto] |].
    split; [discriminate |].
    intros a p' [= <- <-]. cbn. repeat split.
  - rewrite (bool_decide_eq_false_2 _ Hfin). cbn.
    destruct (decide (c ∈ detached_contexts_ p)) as [Hin | Hin].
    + rewrite (bool_decide_eq_true_2 _ Hin). cbn. rewrite orb_false_r.
      destruct NDEBUG; cbn.
      * split; [split; [discriminate | intros [? _]; discriminate] |].
        split; [discriminate |].
        intros a p' [= <- <-]. cbn. rewrite app_nil_r. repeat split.
      * split; [split; [auto | reflexivity] |].
        split; [intros h [= <-]; reflexivity | discriminate].
    + rewrite (bool_decide_eq_false_2 _ Hin). cbn. rewrite orb_true_r. cbn.
      split; [split; [discriminate | intros (_ & _ & ?); contradiction] |].
      split; [discriminate |].
      intros a p' [= <- <-]. cbn. rewrite app_nil_r. repeat split.
Qed.

Lemma Adopt_spec_witness :
  Adopt false 3%nat (mkProcessor Examples.world0 true 2 {[3%nat]} ∅ ∅ [])
  = Halted AssertionFailed.
Proof.
  apply (Adopt_spec false 3%nat
           (mkProcessor Examples.world0 true 2 {[3%nat]} ∅ ∅ [])).
  split; [reflexivity |]. split; cbn; set_solver.
Defined.

(** *** The body of the worker loop *)

Lemma before_step_done (c : handle) (p : Processor) :
  exists p0,
    before_step c p = Done tt p0
    /\ world p0 = snd (CheckWaitTime c (snd (decrement_task_queue_size
                                               (world p))))
    /\ is_running_ p0 = is_running_ p
    /\ workers_ p0 = workers_ p
    /\ detached_contexts_ p0 = detached_contexts_ p
    /\ detached p0 = detached p
    /\ finished p0 = finished p
    /\ exists evs, made p0 = made p ++ (CallEvent <$> evs) ++ [CallDoStep c].
Proof.
  unfold before_step, lift, record, mbind, P_bind.
  eexists. split; [reflexivity |].
  cbn [world is_running_ workers_ detached_contexts_ detached finished made].
  repeat split.
  exists (calls decrement_task_queue_size (world p)
          ++ calls (CheckWaitTime c)
               (snd (decrement_task_queue_size (world p)))).
  rewrite fmap_app, <- !app_assoc. reflexivity.
Qed.

Lemma ProcessTask_tail (DoStep : handle -> Processor ->
                                         StepOutcome * Processor)
        (c : handle) (p : Processor) :
  exists p0,
    before_step c p = Done tt p0
    /\ let outcome := fst (DoStep c p0) in
       let p1 := snd (DoStep c p0) in
       let dropped := outcome = StepThrewStdException
                      \/ (c ∈ detached p1 /\ c ∈ finished p1) in
       (outcome = StepThrewOther ->
        ProcessTask DoStep c p = Halted Terminated)
       /\ (outcome <> StepThrewOther ->
           exists p',
             ProcessTask DoStep c p = Done tt p'
             /\ world p' = world p1
             /\ detached p' = detached p1
             /\ finished p' = finished p1
             /\ (dropped -> detached_contexts_ p'
                            = detached_contexts_ p1 ∖ {[c]})
             /\ (~ dropped -> detached_contexts_ p' = detached_contexts_ p1)
             /\ made p'
                = made p1
                  ++ (if decide ((outcome = StepThrewStdException
                                  \/ (c ∈ detached p1 /\ c ∈ finished p1))
                                 /\ c ∈ detached_contexts_ p1)
                      then [CallIntrusivePtrRelease c] else [])
                  ++ [CallIntrusivePtrRelease c]).
Proof.
  destruct (before_step_done c p) as (p0 & E0 & _).
  exists p0. split; [exact E0 |]. cbv zeta.
  unfold ProcessTask, mbind, P_bind. rewrite E0. unfold step.
  destruct (DoStep c p0) as [outcome p1]. cbn [fst snd].
  split.
  - intros ->. reflexivity.
  - intros Hne. unfold after_step.
    destruct outcome; [| | contradiction]; run_life.
    + destruct (decide (c ∈ detached p1)) as [Hd | Hd];
        destruct (decide (c ∈ finished p1)) as [Hf | Hf];
        rewrite ?(bool_decide_eq_true_2 _ Hd), ?(bool_decide_eq_false_2 _ Hd),
          ?(bool_decide_eq_true_2 _ Hf), ?(bool_decide_eq_false_2 _ Hf);
        cbn.
      * destruct (decide (c ∈ detached_contexts_ p1)) as [Hin | Hin];
          rewrite ?(bool_decide_eq_true_2 _ Hin),
            ?(bool_decide_eq_false_2 _ Hin); cbn;
          eexists; (split; [reflexivity |]); cbn; repeat split;
            try (intros; set_solver);
            case_decide; try reflexivity; try tauto;
            rewrite <- ?app_assoc; reflexivity.
      * eexists. split; [reflexivity |]. cbn. repeat split;
          try (intros [? | [? ?]]; [discriminate | contradiction]).
        case_decide as H; [| reflexivity].
        destruct H as [[? | [? ?]] _]; [discriminate | contradiction].
      * eexists. split; [reflexivity |]. cbn. repeat split;
          try (intros [? | [? ?]]; [discriminate | contradiction]).
        case_decide as H; [| reflexivity].
        destruct H as [[? | [? ?]] _]; [discriminate | contradiction].
      * eexists. split; [reflexivity |]. cbn. repeat split;
          try (intros [? | [? ?]]; [discriminate | contradiction]).
        case_decide as H; [| reflexivity].
        destruct H as [[? | [? ?]] _]; [discriminate | contradiction].
    + destruct (decide (c ∈ detached_contexts_ p1)) as [Hin | Hin];
        rewrite ?(bool_decide_eq_true_2 _ Hin),
          ?(bool_decide_eq_false_2 _ Hin); cbn;
        eexists; (split; [reflexivity |]); cbn; repeat split;
          try (intros; set_solver);
          try (intros Hn; exfalso; apply Hn; left; reflexivity);
          case_decide; try reflexivity; try tauto;
          rewrite <- ?app_assoc; reflexivity.
Qed.

(** X16.  In the body of the worker loop, once [DoStep] has been called:
    if it threw something that is not a [std::exception] the program is
    terminated; otherwise the body completes.  The context is then out of
    the detached set whenever [DoStep] threw, whatever its flags, and
    whenever it is detached and finished; no other context enters or
    leaves the set, and in any other case the set is as [DoStep] left it.
    The reference the loop holds is dropped, after the one the set held
    if the context was erased from it. *)
Theorem ProcessTask_after_step (DoStep : handle -> Processor ->
                                         StepOutcome * Processor)
        (c : handle) (p : Processor) :
  exists p0,
    before_step c p = Done tt p0
    /\ let outcome := fst (DoStep c p0) in
       let p1 := snd (DoStep c p0) in
       let dropped := outcome = StepThrewStdException
                      \/ (c ∈ detached p1 /\ c ∈ finished p1) in
       (outcome = StepThrewOther ->
        ProcessTask DoStep c p = Halted Terminated)
       /\ (outcome <> StepThrewOther ->
           exists p',
             ProcessTask DoStep c p = Done tt p'
             /\ world p' = world p1
             /\ detached p' = detached p1
             /\ finished p' = finished p1
             /\ (dropped -> detached_contexts_ p'
                            = detached_contexts_ p1 ∖ {[c]})
             /\ (~ dropped -> detached_contexts_ p' = detached_contexts_ p1)
             /\ made p'
                = made p1
                  ++ (if decide ((outcome = StepThrewStdException
                                  \/ (c ∈ detached p1 /\ c ∈ finished p1))
                                 /\ c ∈ detached_contexts_ p1)
                      then [CallIntrusivePtrRelease c] else [])
                  ++ [CallIntrusivePtrRelease c]).
Proof. exact (ProcessTask_tail DoStep c p). Qed.

Lemma decrement_task_queue_size_world (w : World) :
  snd (decrement_task_queue_size w)
  = mkWorld (set_task_queue_size
               (size_t_wrap (task_queue_size_ (proc w) - 1)) (proc w))
      (task_count w) (contexts w) (steady_clock_now w) (trace w).
Proof. reflexivity. Qed.

Lemma lift_Schedule_done (c : handle) (p : Processor) :
  exists p1,
    lift (Schedule c) p = Done tt p1
    /\ world p1 = snd (Schedule c (world p))
    /\ is_running_ p1 = is_running_ p
    /\ workers_ p1 = workers_ p
    /\ detached_contexts_ p1 = detached_contexts_ p
    /\ detached p1 = detached p
    /\ finished p1 = finished p
    /\ made p1 = made p ++ (CallEvent <$> calls (Schedule c) (world p)).
Proof.
  unfold lift. destruct (Schedule c (world p)) as [[] w'] eqn:E.
  eexists. split; [reflexivity |]. cbn. repeat split.
Qed.

(** X17.  The size of the queue is kept in balance: when a context is
    scheduled and a worker then takes it up, the size is, at the call of
    [DoStep], what it was before the context was scheduled, also when the
    increment wrapped. *)
Theorem worker_decrement_undoes_Schedule (c : handle) (p : Processor) :
  (0 <= task_queue_size_ (proc (world p)) < size_t_modulus)%Z ->
  exists p1 p0,
    lift (Schedule c) p = Done tt p1
    /\ before_step c p1 = Done tt p0
    /\ task_queue_size_ (proc (world p0))
       = task_queue_size_ (proc (world p)).
Proof.
  intros Hrange.
  destruct (lift_Schedule_done c p) as (p1 & E1 & Hw1 & _).
  destruct (before_step_done c p1) as (p0 & E0 & Hw0 & _).
  exists p1, p0. split; [exact E1 |]. split; [exact E0 |].
  rewrite Hw0.
  destruct (RunsFacts.CheckWaitTime_frame c
              (snd (decrement_task_queue_size (world p1))))
    as (_ & _ & _ & _ & Hsize & _).
  cbv zeta in Hsize.
  rewrite Hsize, decrement_task_queue_size_world, Hw1, Schedule_world. cbn.
  unfold size_t_wrap. rewrite Zminus_mod_idemp_l.
  replace (task_queue_size_ (proc (world p)) + 1 - 1)%Z
    with (task_queue_size_ (proc (world p))) by lia.
  apply Z.mod_small, Hrange.
Qed.

Lemma worker_decrement_undoes_Schedule_witness :
  (0 <= task_queue_size_
          (proc (world (mkProcessor Examples.world_full true 2 ∅ ∅ ∅ [])))
   < size_t_modulus)%Z
  /\ exists p1 p0,
      lift (Schedule 5%nat)
        (mkProcessor Examples.world_full true 2 ∅ ∅ ∅ []) = Done tt p1
      /\ before_step 5%nat p1 = Done tt p0
      /\ task_queue_size_ (proc (world p0))
         = task_queue_size_
             (proc (world (mkProcessor Examples.world_full true 2 ∅ ∅ ∅ []))).
Proof.
  assert (0 <= task_queue_size_
                 (proc (world (mkProcessor Examples.world_full true 2
                                 ∅ ∅ ∅ [])))
          < size_t_modulus)%Z as Hrange by (cbn; unfold size_t_modulus; lia).
  split; [exact Hrange |].
  apply (worker_decrement_undoes_Schedule 5%nat
           (mkProcessor Examples.world_full true 2 ∅ ∅ ∅ []) Hrange).
Defined.

(** X18.  A context adopted while not finished, and not adopted before, is
    put in the detached set and leaves it again in the pass of the worker
    loop in which it finishes: when that [DoStep] returns with the context
    finished, having left the detached set and the detached mark as they
    were, the set is afterwards what it was before [Adopt], and both the
    reference of the set and that of the loop have been dropped. *)
Theorem adopted_context_leaves_when_finished
        (NDEBUG : bool)
        (DoStep : handle -> Processor -> StepOutcome * Processor)
        (c : handle) (p : Processor) :
  c ∉ finished p ->
  c ∉ detached_contexts_ p ->
  exists pa p0,
    Adopt NDEBUG c p = Done tt pa
    /\ detached_contexts_ pa = {[c]} ∪ detached_contexts_ p
    /\ before_step c pa = Done tt p0
    /\ (fst (DoStep c p0) = StepReturned ->
        c ∈ finished (snd (DoStep c p0)) ->
        detached (snd (DoStep c p0)) = detached p0 ->
        detached_contexts_ (snd (DoStep c p0)) = detached_contexts_ p0 ->
        exists p',
          ProcessTask DoStep c pa = Done tt p'
          /\ detached_contexts_ p' = detached_contexts_ p
          /\ made p' = made (snd (DoStep c p0))
                       ++ [CallIntrusivePtrRelease c;
                           CallIntrusivePtrRelease c]).
Proof.
  intros Hfin Hin.
  assert (exists pa, Adopt NDEBUG c p = Done tt pa
                     /\ detached_contexts_ pa = {[c]} ∪ detached_contexts_ p
                     /\ detached pa = {[c]} ∪ detached p)
    as (pa & Ea & Hset & Hdet).
  { run_life.
    rewrite (bool_decide_eq_false_2 _ Hfin). cbn.
    rewrite (bool_decide_eq_false_2 _ Hin). cbn. rewrite orb_true_r. cbn.
    eexists. split; [reflexivity |]. cbn. auto. }
  destruct (before_step_done c pa)
    as (p0 & E0 & _ & _ & _ & Hset0 & Hdet0 & _).
  exists pa, p0. split; [exact Ea |]. split; [exact Hset |].
  split; [exact E0 |].
  intros Hret Hfin1 Hdet1 Hset1.
  unfold ProcessTask, mbind, P_bind. rewrite E0. unfold step.
  destruct (DoStep c p0) as [outcome p1]. cbn [fst snd] in *. subst outcome.
  unfold after_step. run_life.
  assert (c ∈ detached p1) as Hd by (rewrite Hdet1, Hdet0, Hdet; set_solver).
  assert (c ∈ detached_contexts_ p1) as Hs
      by (rewrite Hset1, Hset0, Hset; set_solver).
  rewrite (bool_decide_eq_true_2 _ Hd), (bool_decide_eq_true_2 _ Hfin1).
  cbn. rewrite (bool_decide_eq_true_2 _ Hs). cbn.
  eexists. split; [reflexivity |]. cbn.
  split; [| rewrite <- app_assoc; reflexivity].
  rewrite Hset1, Hset0, Hset. set_solver.
Qed.

Lemma adopted_context_leaves_when_finished_witness :
  (3%nat ∉ finished Examples.processor0)
  /\ (3%nat ∉ detached_contexts_ Examples.processor0)
  /\ exists pa p',
      Adopt false 3%nat Examples.processor0 = Done tt pa
      /\ detached_contexts_ pa = {[3%nat]} ∪ ∅
      /\ ProcessTask Examples.finishing_step 3%nat pa = Done tt p'
      /\ detached_contexts_ p' = ∅.
Proof.
  assert (3%nat ∉ finished Examples.processor0) as Hfin by (cbn; set_solver).
  assert (3%nat ∉ detached_contexts_ Examples.processor0) as Hin
      by (cbn; set_solver).
  split; [exact Hfin |]. split; [exact Hin |].
  destruct (adopted_context_leaves_when_finished false
              Examples.finishing_step 3%nat Examples.processor0 Hfin Hin)
    as (pa & p0 & Ea & Hset & E0 & H).
  destruct H as (p' & E' & Hset' & _).
  - reflexivity.
  - cbn. set_solver.
  - reflexivity.
  - reflexivity.
  - exists pa, p'. auto.
Defined.

(** *** The destructor *)

Lemma RequestCancel_world (c : handle) (r : CancellationReason) (w : World) :
  snd (RequestCancel c r w)
  = mkWorld (proc w) (task_count w) (contexts w) (steady_clock_now w)
      (trace w ++ [EvRequestCancel c r]).
Proof. reflexivity. Qed.

Lemma cancel_all_done (cs : list handle) (p : Processor) :
  exists p',
    cancel_all cs p = Done tt p'
    /\ proc (world p') = proc (world p)
    /\ contexts (world p') = contexts (world p)
    /\ task_count (world p') = task_count (world p)
    /\ steady_clock_now (world p') = steady_clock_now (world p)
    /\ trace (world p')
       = trace (world p) ++ ((fun c => EvRequestCancel c kShutdown) <$> cs)
    /\ is_running_ p' = is_running_ p
    /\ workers_ p' = workers_ p
    /\ detached_contexts_ p' = detached_contexts_ p
    /\ detached p' = detached p
    /\ finished p' = finished p
    /\ made p'
       = made p
         ++ (CallEvent <$> ((fun c => EvRequestCancel c kShutdown) <$> cs)).
Proof.
  revert p. induction cs as [| c cs IH]; intros p.
  - exists p. cbn. rewrite !app_nil_r. repeat split.
  - cbn [cancel_all]. unfold mbind, P_bind, lift.
    match goal with
    | |- context [cancel_all cs ?q] =>
        destruct (IH q)
          as (p' & E & Hp & Hc & Htc & Hnow & Htr & Hr & Hw & Hs & Hd & Hf
              & Hm)
    end.
    exists p'. split; [exact E |].
    cbn [world is_running_ workers_ detached_contexts_ detached finished
         made] in *.
    rewrite RequestCancel_world in *.
    cbn [proc contexts task_count steady_clock_now trace] in *.
    assert (calls (RequestCancel c kShutdown) (world p)
            = [EvRequestCancel c kShutdown]) as Hcalls
        by (apply calls_app; reflexivity).
    rewrite Hcalls in Hm.
    rewrite Hp, Hc, Htc, Hnow, Htr, Hr, Hw, Hs, Hd, Hf, Hm.
    cbn. rewrite <- !app_assoc. repeat split.
Qed.

Lemma join_all_done (ws : list nat) (p : Processor) :
  exists p',
    join_all ws p = Done tt p'
    /\ world p' = world p
    /\ is_running_ p' = is_running_ p
    /\ workers_ p' = workers_ p
    /\ detached_contexts_ p' = detached_contexts_ p
    /\ detached p' = detached p
    /\ finished p' = finished p
    /\ made p' = made p ++ (CallJoin <$> ws).
Proof.
  revert p. induction ws as [| w ws IH]; intros p.
  - exists p. cbn. rewrite app_nil_r. repeat split.
  - cbn [join_all]. unfold mbind, P_bind, record.
    match goal with
    | |- context [join_all ws ?q] =>
        destruct (IH q) as (p' & E & Hw & Hr & Hn & Hs & Hd & Hf & Hm)
    end.
    exists p'. split; [exact E |].
    cbn [world is_running_ workers_ detached_contexts_ detached finished
         made] in *.
    rewrite Hw, Hr, Hn, Hs, Hd, Hf, Hm. cbn. rewrite <- !app_assoc.
    repeat split.
Qed.

Lemma occurrences_cancels (c : handle) (r : CancellationReason)
      (cs : list handle) :
  NoDup cs ->
  occurrences (EvRequestCancel c r)
    ((fun c' => EvRequestCancel c' kShutdown) <$> cs)
  = if decide (c ∈ cs /\ r = kShutdown) then 1 else 0.
Proof.
  unfold occurrences. induction cs as [| c' cs IH]; intros Hnd.
  - cbn. case_decide as H; [| reflexivity].
    destruct H as [H _]. apply elem_of_nil in H. contradiction.
  - apply NoDup_cons in Hnd as [Hc' Hnd]. specialize (IH Hnd).
    cbn [fmap list_fmap count_occ].
    destruct (Event_eq_dec (EvRequestCancel c' kShutdown)
                           (EvRequestCancel c r)) as [E | E].
    + injection E as -> <-. rewrite IH.
      case_decide as H1; [destruct H1; contradiction |].
      case_decide as H2; [reflexivity |].
      exfalso. apply H2. split; [apply elem_of_cons; auto | reflexivity].
    + rewrite IH. case_decide as H1; case_decide as H2; try reflexivity.
      * exfalso. apply H2. destruct H1 as [H1 ->].
        split; [apply elem_of_cons; auto | reflexivity].
      * exfalso. destruct H2 as [H2 ->].
        apply elem_of_cons in H2 as [-> | H2]; [congruence |].
        apply H1. auto.
Qed.

Lemma release_all_done (cs : list handle) (p : Processor) :
  exists p',
    release_all cs p = Done tt p'
    /\ world p' = world p
    /\ is_running_ p' = is_running_ p
    /\ workers_ p' = workers_ p
    /\ detached_contexts_ p' = detached_contexts_ p
    /\ detached p' = detached p
    /\ finished p' = finished p
    /\ made p' = made p ++ (CallIntrusivePtrRelease <$> cs).
Proof.
  revert p. induction cs as [| c cs IH]; intros p.
  - exists p. cbn. rewrite app_nil_r. repeat split.
  - cbn [release_all]. unfold mbind, P_bind, record.
    match goal with
    | |- context [release_all cs ?q] =>
        destruct (IH q) as (p' & E & Hw & Hr & Hn & Hs & Hd & Hf & Hm)
    end.
    exists p'. split; [exact E |].
    cbn [world is_running_ workers_ detached_contexts_ detached finished
         made] in *.
    rewrite Hw, Hr, Hn, Hs, Hd, Hf, Hm. cbn. rewrite <- !app_assoc.
    repeat split.
Qed.

Lemma occurrences_releases (c : handle) (cs : list handle) :
  NoDup cs ->
  count_occ Call_eq_dec (CallIntrusivePtrRelease <$> cs)
    (CallIntrusivePtrRelease c)
  = if decide (c ∈ cs) then 1 else 0.
Proof.
  induction cs as [| c' cs IH]; intros Hnd.
  - cbn. case_decide as H; [| reflexivity].
    apply elem_of_nil in H. contradiction.
  - apply NoDup_cons in Hnd as [Hc' Hnd]. specialize (IH Hnd).
    cbn [fmap list_fmap count_occ].
    destruct (Call_eq_dec (CallIntrusivePtrRelease c')
                          (CallIntrusivePtrRelease c)) as [E | E].
    + injection E as ->. rewrite IH.
      case_decide as H1; [contradiction |].
      case_decide as H2; [reflexivity |].
      exfalso. apply H2, elem_of_cons. auto.
    + rewrite IH. case_decide as H1; case_decide as H2; try reflexivity.
      * exfalso. apply H2, elem_of_cons. auto.
      * exfalso. apply elem_of_cons in H2 as [-> | H2]; [congruence |].
        contradiction.
Qed.

(** X19.  The destructor stops at its assertion exactly when assertions
    are compiled in and the task counter is not zero at the end of its
    body.  Otherwise it runs to its end: the processor has been marked as
    shutting down and as not running, and the calls made are, in this
    order, a request to cancel with [kShutdown] to each context of the
    detached set, in the order the set yields them; the wait for the
    counter; the join of each worker; and, the set being destroyed after
    the body, the release of each context it held, which leaves it empty.
    In whatever order the set yields and destroys its elements, each
    detached context is asked to cancel exactly once and released exactly
    once, and no other context is either. *)
Theorem destructor_spec (NDEBUG : bool)
        (iteration_order destruction_order : gset handle -> list handle)
        (counter : Z) (p : Processor) :
  lists_each_once iteration_order ->
  lists_each_once destruction_order ->
  let run := destructor NDEBUG iteration_order destruction_order counter p in
  let cancels := (fun c => EvRequestCancel c kShutdown)
                   <$> iteration_order (detached_contexts_ p) in
  let releases := CallIntrusivePtrRelease
                    <$> destruction_order (detached_contexts_ p) in
  (run = Halted AssertionFailed <-> NDEBUG = false /\ counter <> 0%Z)
  /\ (forall h, run = Halted h -> h = AssertionFailed)
  /\ (NDEBUG = true \/ counter = 0%Z ->
      exists p',
        run = Done tt p'
        /\ is_shutting_down_ (proc (world p')) = true
        /\ is_running_ p' = false
        /\ detached_contexts_ p' = ∅
        /\ trace (world p') = trace (world p) ++ cancels
        /\ made p'
           = made p ++ (CallEvent <$> cancels)
             ++ [CallWaitForExhaustion]
             ++ (CallJoin <$> seq 0 (workers_ p))
             ++ releases)
  /\ (forall c r,
        occurrences (EvRequestCancel c r) cancels
        = if decide (c ∈ detached_contexts_ p /\ r = kShutdown)
          then 1 else 0)
  /\ (forall c,
        count_occ Call_eq_dec releases (CallIntrusivePtrRelease c)
        = if decide (c ∈ detached_contexts_ p) then 1 else 0).
Proof.
  intros Hiter Hdestr. cbv zeta.
  assert (exists p',
             (forall b, destructor b iteration_order destruction_order
                          counter p
                        = if b || (counter =? 0)%Z then Done tt p'
                          else Halted AssertionFailed)
             /\ is_shutting_down_ (proc (world p')) = true
             /\ is_running_ p' = false
             /\ detached_contexts_ p' = ∅
             /\ trace (world p')
                = trace (world p)
                  ++ ((fun c => EvRequestCancel c kShutdown)
                        <$> iteration_order (detached_contexts_ p))
             /\ made p'
                = made p
                  ++ (CallEvent <$> ((fun c => EvRequestCancel c kShutdown)
                                       <$> iteration_order
                                             (detached_contexts_ p)))
                  ++ [CallWaitForExhaustion]
                  ++ (CallJoin <$> seq 0 (workers_ p))
                  ++ (CallIntrusivePtrRelease
                        <$> destruction_order (detached_contexts_ p)))
    as (p' & Hrun & Hsd & Hrunning & Hset & Htrace & Hmade).
  { unfold destructor, destructor_body, destroy_detached_contexts, mbind,
      P_bind, lift, reads, record, set_is_running, set_detached_contexts,
      assert.
    cbn [world is_running_ workers_ detached_contexts_ detached finished
         made].
    match goal with
    | |- context [cancel_all _ ?q] =>
        destruct (cancel_all_done (iteration_order (detached_contexts_ p)) q)
          as (p1 & E1 & Hp1 & _ & _ & _ & Htr1 & _ & Hw1 & Hs1 & _ & _
              & Hm1)
    end.
    cbn [world is_running_ workers_ detached_contexts_ detached finished
         made] in *.
    rewrite E1.
    match goal with
    | |- context [join_all _ ?q] =>
        destruct (join_all_done (seq 0 (workers_ p1)) q)
          as (p2 & E2 & Hw2 & Hr2 & _ & Hs2 & _ & _ & Hm2)
    end.
    cbn [world is_running_ workers_ detached_contexts_ detached finished
         made] in *.
    rewrite E2.
    destruct (release_all_done (destruction_order (detached_contexts_ p2)) p2)
      as (p3 & E3 & Hw3 & Hr3 & _ & _ & _ & _ & Hm3).
    eexists. split.
    - intros b. unfold mret, P_ret, halt.
      destruct (b || (counter =? 0)%Z); [| reflexivity].
      rewrite E3. reflexivity.
    - cbn [world is_running_ workers_ detached_contexts_ detached finished
           made].
      rewrite Hw3, Hr3, Hm3, Hw2, Hr2, Hs2, Hm2, Hp1, Htr1, Hs1, Hm1, Hw1.
      assert (calls (store_proc (set_is_shutting_down true)) (world p) = [])
        as -> by (unfold calls; cbn; apply drop_all).
      cbn. rewrite app_nil_r, <- !app_assoc. repeat split. }
  split; [| split; [| split; [| split]]].
  - rewrite Hrun. destruct NDEBUG; cbn.
    + split; [discriminate | intros [? _]; discriminate].
    + destruct (Z.eqb_spec counter 0) as [-> | Hne].
      * split; [discriminate | intros [_ ?]; contradiction].
      * split; [auto | reflexivity].
  - intros h. rewrite Hrun.
    destruct (NDEBUG || (counter =? 0)%Z); [discriminate |].
    intros [= <-]. reflexivity.
  - intros Hok. exists p'. rewrite Hrun.
    assert (NDEBUG || (counter =? 0)%Z = true) as ->.
    { destruct Hok as [-> | ->]; [reflexivity | apply orb_true_r]. }
    auto 10.
  - intros c r. destruct (Hiter (detached_contexts_ p)) as [Hnd Hin].
    rewrite occurrences_cancels by exact Hnd.
    case_decide as H1; case_decide as H2; try reflexivity; exfalso.
    + apply H2. destruct H1 as [H1 ->].
      split; [apply Hin, H1 | reflexivity].
    + apply H1. destruct H2 as [H2 ->].
      split; [apply Hin, H2 | reflexivity].
  - intros c. destruct (Hdestr (detached_contexts_ p)) as [Hnd Hin].
    rewrite occurrences_releases by exact Hnd.
    case_decide as H1; case_decide as H2; try reflexivity; exfalso.
    + apply H2, Hin, H1.
    + apply H1, Hin, H2.
Qed.

Lemma lists_each_once_elements : lists_each_once elements.
Proof.
  intros s. split; [apply NoDup_elements | intros c; apply elem_of_elements].
Qed.

Lemma lists_each_once_reverse :
  lists_each_once (fun s => reverse (elements s)).
Proof.
  intros s. split.
  - rewrite reverse_Permutation. apply NoDup_elements.
  - intros c. rewrite elem_of_reverse. apply elem_of_elements.
Qed.

Lemma destructor_spec_witness :
  lists_each_once elements
  /\ lists_each_once (fun s => reverse (elements s))
  /\ exists p',
      destructor false elements (fun s => reverse (elements s)) 0
        (mkProcessor Examples.world0 true 2 {[4%nat; 9%nat]} ∅ ∅ [])
      = Done tt p'
      /\ detached_contexts_ p' = ∅
      /\ made p'
         = (CallEvent <$> ((fun c => EvRequestCancel c kShutdown)
                             <$> elements ({[4%nat; 9%nat]} : gset handle)))
           ++ [CallWaitForExhaustion]
           ++ [CallJoin 0%nat; CallJoin 1%nat]
           ++ (CallIntrusivePtrRelease
                 <$> reverse (elements ({[4%nat; 9%nat]} : gset handle))).
Proof.
  split; [exact lists_each_once_elements |].
  split; [exact lists_each_once_reverse |].
  destruct (destructor_spec false elements (fun s => reverse (elements s)) 0
              (mkProcessor Examples.world0 true 2 {[4%nat; 9%nat]} ∅ ∅ [])
              lists_each_once_elements lists_each_once_reverse)
    as (_ & _ & Hdone & _).
  destruct (Hdone (or_intror eq_refl)) as (p' & E & _ & _ & Hset & _ & Hmade).
  exists p'. split; [exact E |]. split; [exact Hset |]. exact Hmade.
Defined.

(** *** The worker loop *)

Lemma stepped_app (cs1 cs2 : list Call) :
  stepped (cs1 ++ cs2) = stepped cs1 ++ stepped cs2.
Proof. apply omap_app. Qed.

Lemma stepped_events (evs : list Event) : stepped (CallEvent <$> evs) = [].
Proof. induction evs as [| e evs IH]; [reflexivity | exact IH]. Qed.

Section WorkerLoop.

Variable DoStep : handle -> Processor -> StepOutcome * Processor.

(** [DoStep] adds to the calls made, and the call of [DoStep] for a
    context is made by the worker loop only. *)
Hypothesis DoStep_made :
  forall c p, exists cs, made (snd (DoStep c p)) = made p ++ cs
                         /\ stepped cs = [].

Lemma ProcessTask_made (c : handle) (p p' : Processor) :
  ProcessTask DoStep c p = Done tt p' ->
  exists cs, made p' = made p ++ cs /\ stepped cs = [c].
Proof using DoStep_made.
  destruct (ProcessTask_tail DoStep c p) as (p0 & E0 & Hother & Hdone).
  destruct (before_step_done c p) as (p0' & E0' & _ & _ & _ & _ & _ & _ & evs
                                      & Hm0).
  rewrite E0 in E0'. injection E0' as <-.
  cbv zeta in *. intros E.
  destruct (decide (fst (DoStep c p0) = StepThrewOther)) as [Ho | Ho].
  - rewrite (Hother Ho) in E. discriminate.
  - destruct (Hdone Ho) as (p'' & E' & _ & _ & _ & _ & _ & Hm).
    rewrite E in E'. injection E' as <-.
    destruct (DoStep_made c p0) as (cs1 & Hm1 & Hs1).
    rewrite Hm, Hm1, Hm0. eexists. rewrite <- !app_assoc.
    split; [reflexivity |].
    rewrite !stepped_app, stepped_events, Hs1. cbn.
    case_decide; reflexivity.
Qed.

Lemma ProcessTasks_cons (script : list DequeueOutcome)
      (scripts : list (list DequeueOutcome)) (p : Processor) :
  ProcessTasks DoStep (script :: scripts) p
  = let p1 :=
      mkProcessor (snd (DequeueTask script (world p)))
        (is_running_ p) (workers_ p) (detached_contexts_ p)
        (detached p) (finished p)
        (made p ++ (CallEvent <$> calls (DequeueTask script) (world p))) in
    match fst (DequeueTask script (world p)) with
    | None => Done false p1
    | Some None => Done true p1
    | Some (Some c) =>
        match ProcessTask DoStep c p1 with
        | Done _ p2 => ProcessTasks DoStep scripts p2
        | Halted h => Halted h
        end
    end.
Proof.
  cbn [ProcessTasks]. unfold mbind, P_bind, lift.
  destruct (fst (DequeueTask script (world p))) as [[c |] |]; reflexivity.
Qed.

(** X20.  When the worker loop comes to its end or the scripts run out,
    [DoStep] has been called once for each context that [DequeueTask]
    returned, in the order returned, and for nothing else: with [n] calls
    of [DoStep], the first [n] calls of [DequeueTask] returned the contexts
    stepped, and the call after them returned no context.  The loop is left
    exactly when that call returns the null pointer; it is not left when
    there is no such call or it is still polling.  The loop stops the
    program only through [std::terminate]. *)
Theorem ProcessTasks_steps_what_it_dequeues
        (scripts : list (list DequeueOutcome)) (p : Processor) :
  (forall h, ProcessTasks DoStep scripts p = Halted h -> h = Terminated)
  /\ (forall b p',
        ProcessTasks DoStep scripts p = Done b p' ->
        exists cs,
          made p' = made p ++ cs
          /\ (forall i c,
                stepped cs !! i = Some c ->
                exists script,
                  scripts !! i = Some script
                  /\ forall w, fst (DequeueTask script w) = Some (Some c))
          /\ (b = true <->
              exists script,
                scripts !! length (stepped cs) = Some script
                /\ forall w, fst (DequeueTask script w) = Some None)
          /\ (b = false ->
              scripts !! length (stepped cs) = None
              \/ exists script,
                  scripts !! length (stepped cs) = Some script
                  /\ forall w, fst (DequeueTask script w) = None)).
Proof using DoStep_made.
  revert p. induction scripts as [| script scripts IH]; intros p.
  - split; [discriminate |].
    intros b p' [= <- <-]. exists []. rewrite app_nil_r.
    split; [reflexivity |]. split; [intros i c; discriminate |].
    split; [| intros _; left; reflexivity].
    split; [discriminate | intros (script & Hs & _); discriminate].
  - rewrite ProcessTasks_cons. cbv zeta.
    destruct (fst (DequeueTask script (world p))) as [[c |] |] eqn:Ebuf.
    + destruct (ProcessTask DoStep c _) as [[] p1 | h] eqn:E1.
      * destruct (ProcessTask_made _ _ _ E1) as (cs1 & Hm1 & Hs1).
        cbn [made] in Hm1.
        destruct (IH p1) as [IHh IHd].
        split; [exact IHh |].
        intros b p' E.
        destruct (IHd b p' E) as (cs & Hm & Hsteps & Hb & Hf).
        exists ((CallEvent <$> calls (DequeueTask script) (world p))
                ++ cs1 ++ cs).
        split; [rewrite Hm, Hm1, <- !app_assoc; reflexivity |].
        rewrite !stepped_app, stepped_events, Hs1. cbn [app].
        split; [| split].
        -- intros [| i] c'; cbn.
           ++ intros [= <-]. exists script. split; [reflexivity |].
              intros w. rewrite <- Ebuf. apply RunsFacts.DequeueTask_result_indep.
           ++ apply Hsteps.
        -- cbn [length lookup list_lookup]. exact Hb.
        -- cbn [length lookup list_lookup]. exact Hf.
      * split; [| discriminate].
        intros h' [= <-].
        destruct (ProcessTask_tail DoStep c
                    (mkProcessor (snd (DequeueTask script (world p)))
                       (is_running_ p) (workers_ p) (detached_contexts_ p)
                       (detached p) (finished p)
                       (made p ++ (CallEvent <$> calls (DequeueTask script)
                                                   (world p)))))
          as (p0 & _ & Hother & Hdone).
        cbv zeta in *.
        destruct (decide (fst (DoStep c p0) = StepThrewOther)) as [Ho | Ho].
        -- rewrite (Hother Ho) in E1. congruence.
        -- destruct (Hdone Ho) as (p'' & E' & _). rewrite E1 in E'.
           discriminate.
    + split; [discriminate |].
      intros b p' [= <- <-].
      exists (CallEvent <$> calls (DequeueTask script) (world p)).
      split; [reflexivity |]. rewrite stepped_events.
      split; [intros i c; discriminate |].
      split; [| discriminate].
      split; [| reflexivity]. intros _. exists script.
      split; [reflexivity |].
      intros w. rewrite <- Ebuf. apply RunsFacts.DequeueTask_result_indep.
    + split; [discriminate |].
      intros b p' [= <- <-].
      exists (CallEvent <$> calls (DequeueTask script) (world p)).
      split; [reflexivity |]. rewrite stepped_events.
      split; [intros i c; discriminate |].
      split.
      * split; [discriminate |].
        intros (script' & [= <-] & Hnull).
        specialize (Hnull (world p)). congruence.
      * intros _. right. exists script. split; [reflexivity |].
        intros w. rewrite <- Ebuf. apply RunsFacts.DequeueTask_result_indep.
Qed.

End WorkerLoop.

(** A worker takes up a scheduled and adopted context, which finishes, and
    then finds the processor stopped. *)
Example worker_runs_one_task :
  match (lift (Schedule 3%nat) ;; Adopt false 3%nat ;;
         ProcessTasks Examples.finishing_step
           [[TimedOut true; Produced 3%nat]; [TimedOut false]])
          Examples.processor0 with
  | Done b p' =>
      b = true
      /\ elements (detached_contexts_ p') = []
      /\ task_queue_size_ (proc (world p')) = 0%Z
      /\ made p'
         = [CallEvent EvSteadyClockNow;
            CallEvent (EvIntrusivePtrAddRef 3%nat);
            CallEvent (EvEnqueue 3%nat);
            CallEvent EvAccountTaskSwitchSlow;
            CallDoStep 3%nat;
            CallIntrusivePtrRelease 3%nat;
            CallIntrusivePtrRelease 3%nat]
  | Halted _ => False
  end.
Proof. vm_compute. auto. Qed.

(** Two contexts dequeued and the scripts at their end: both have been
    stepped, in the order dequeued. *)
Example worker_steps_both_contexts :
  match ProcessTasks Examples.finishing_step
          [[Produced 1%nat]; [Produced 2%nat]] Examples.processor0 with
  | Done b p' => b = false /\ stepped (made p') = [1%nat; 2%nat]
  | Halted _ => False
  end.
Proof. vm_compute. auto. Qed.

(** The destructor of a processor with two workers and two contexts
    adopted. *)
Example destructor_cancels_and_joins :
  match destructor false (fun _ => [9%nat; 4%nat]) (fun _ => [4%nat; 9%nat])
          0 (mkProcessor Examples.world0 true 2 {[4%nat; 9%nat]} ∅ ∅ []) with
  | Done _ p' =>
      made p'
      = [CallEvent (EvRequestCancel 9%nat kShutdown);
         CallEvent (EvRequestCancel 4%nat kShutdown);
         CallWaitForExhaustion; CallJoin 0; CallJoin 1;
         CallIntrusivePtrRelease 4%nat; CallIntrusivePtrRelease 9%nat]
      /\ is_running_ p' = false
  | Halted _ => False
  end.
Proof. vm_compute. auto. Qed.

Lemma ProcessTasks_steps_what_it_dequeues_witness :
  (forall c p, exists cs,
      made (snd (Examples.finishing_step c p)) = made p ++ cs
      /\ stepped cs = [])
  /\ forall b p',
      ProcessTasks Examples.finishing_step
        [[TimedOut true; Produced 3%nat]; [TimedOut false]]
        Examples.processor0 = Done b p' ->
      exists cs,
        made p' = made Examples.processor0 ++ cs
        /\ (forall i c,
              stepped cs !! i = Some c ->
              exists script,
                [[TimedOut true; Produced 3%nat]; [TimedOut false]] !! i
                = Some script
                /\ forall w, fst (DequeueTask script w) = Some (Some c))
        /\ (b = true <->
            exists script,
              [[TimedOut true; Produced 3%nat]; [TimedOut false]]
                !! length (stepped cs) = Some script
              /\ forall w, fst (DequeueTask script w) = Some None)
        /\ (b = false ->
            [[TimedOut true; Produced 3%nat]; [TimedOut false]]
              !! length (stepped cs) = None
            \/ exists script,
                [[TimedOut true; Produced 3%nat]; [TimedOut false]]
                  !! length (stepped cs) = Some script
                /\ forall w, fst (DequeueTask script w) = None).
Proof.
  assert (forall c p, exists cs,
             made (snd (Examples.finishing_step c p)) = made p ++ cs
             /\ stepped cs = []) as Hmade.
  { intros c p. exists []. cbn. rewrite app_nil_r. auto. }
  split; [exact Hmade |].
  apply (ProcessTasks_steps_what_it_dequeues Examples.finishing_step Hmade
           [[TimedOut true; Produced 3%nat]; [TimedOut false]]
           Examples.processor0).
Defined.

End LifecycleFacts.

(** * Properties of the statistics of a handler method *)

Module HttpHandlerMethodStatisticsFacts.
Import HttpHandlerMethodStatistics.
Local Open Scope Z_scope.

Lemma stat_run_cons (op : Op) (ops : list Op) (s : Statistics) :
  run (op :: ops) s = run ops (run_op op s).
Proof. reflexivity. Qed.

Lemma run_in_flight_wrap (ops : list Op) (s : Statistics) :
  TaskProcessor.size_t_wrap (in_flight_ (run ops s))
  = TaskProcessor.size_t_wrap (in_flight_ s + balance ops).
Proof.
  revert s. induction ops as [| op ops IH]; intros s.
  - cbn. f_equal. lia.
  - rewrite stat_run_cons, IH. destruct op as [code ms | |]; cbn [run_op balance].
    + reflexivity.
    + cbn. unfold TaskProcessor.size_t_wrap.
      rewrite Zplus_mod_idemp_l. f_equal. lia.
    + cbn. unfold TaskProcessor.size_t_wrap.
      rewrite Zplus_mod_idemp_l. f_equal. lia.
Qed.

Lemma run_in_flight_range (ops : list Op) (s : Statistics) :
  0 <= in_flight_ s < TaskProcessor.size_t_modulus ->
  0 <= in_flight_ (run ops s) < TaskProcessor.size_t_modulus.
Proof.
  revert s. induction ops as [| op ops IH]; intros s Hs; [exact Hs |].
  rewrite stat_run_cons. apply IH.
  destruct op as [code ms | |]; cbn; [exact Hs | |];
    apply Z.mod_pos_bound; reflexivity.
Qed.

(** X21.  The number in flight after any series of increments, decrements
    and accountings, on an object whose number was within [size_t], is
    within [size_t] and equal, modulo 2^64, to the number before plus the
    increments less the decrements; it is exactly that whenever that is
    within [size_t], also when a decrement came first and wrapped.  A
    decrement of zero gives 2^64 - 1. *)
Theorem in_flight_counts (ops : list Op) (s : Statistics) :
  0 <= in_flight_ s < TaskProcessor.size_t_modulus ->
  0 <= GetInFlight (run ops s) < TaskProcessor.size_t_modulus
  /\ GetInFlight (run ops s)
     = TaskProcessor.size_t_wrap (in_flight_ s + balance ops)
  /\ (0 <= in_flight_ s + balance ops < TaskProcessor.size_t_modulus ->
      GetInFlight (run ops s) = in_flight_ s + balance ops)
  /\ GetInFlight (DecrementInFlight constructed)
     = TaskProcessor.size_t_modulus - 1.
Proof.
  intros Hs. unfold GetInFlight.
  pose proof (run_in_flight_range ops s Hs) as Hr.
  pose proof (run_in_flight_wrap ops s) as Hw.
  assert (in_flight_ (run ops s)
          = TaskProcessor.size_t_wrap (in_flight_ s + balance ops)) as E.
  { rewrite <- Hw. unfold TaskProcessor.size_t_wrap.
    symmetry. apply Z.mod_small, Hr. }
  split; [exact Hr |]. split; [exact E |]. split; [| reflexivity].
  intros Hb. rewrite E. apply Z.mod_small, Hb.
Qed.

Lemma in_flight_counts_witness :
  0 <= in_flight_ constructed < TaskProcessor.size_t_modulus
  /\ GetInFlight
       (run [OpDecrementInFlight; OpIncrementInFlight; OpAccount 200 15;
             OpIncrementInFlight] constructed) = 1.
Proof.
  assert (0 <= in_flight_ constructed < TaskProcessor.size_t_modulus)
    as Hs by (cbn; unfold TaskProcessor.size_t_modulus; lia).
  split; [exact Hs |].
  destruct (in_flight_counts
              [OpDecrementInFlight; OpIncrementInFlight; OpAccount 200 15;
               OpIncrementInFlight] constructed Hs) as (_ & _ & H & _).
  rewrite H; [reflexivity |].
  cbn. unfold TaskProcessor.size_t_modulus. lia.
Defined.

(** X22.  [Account] passes the reply code to the reply codes and then the
    time to the current timings counter, and leaves the number in flight
    alone; the increments and decrements make no call.  So in any series
    of uses the calls made are those two for each accounting, in the order
    of the accountings. *)
Theorem Account_forwards_in_order (ops : list Op) (s : Statistics) :
  stat_calls (run ops s) = stat_calls s ++ accounted ops
  /\ (forall code ms, GetInFlight (Account code ms s) = GetInFlight s).
Proof.
  split; [| reflexivity].
  revert s. induction ops as [| op ops IH]; intros s.
  - cbn. rewrite app_nil_r. reflexivity.
  - rewrite stat_run_cons, IH. destruct op as [code ms | |]; cbn.
    + rewrite <- app_assoc. reflexivity.
    + reflexivity.
    + reflexivity.
Qed.

End HttpHandlerMethodStatisticsFacts.
